(** * IOCtlSrc: the Linux optical-drive backend of the CDVD disc reader

    A shallow embedding of [IOCtlSrc] (the ioctl-based device session that
    resolves disc geometry, enumerates the TOC and serves sector reads),
    followed by the properties of its methods.

    The operating system is an oracle: every system call the class issues is
    answered by a function of the calls issued so far, and every call is
    appended to a trace, so that ordering properties can be stated. *)

From Stdlib Require Import ZArith List String Bool Lia.
From Stdlib Require Import Sorted.
Import ListNotations.
Local Open Scope Z_scope.

(** ** Fixed-width integers (PS2Etypes.h) *)

Module Int.

(** [typedef unsigned char u8], [typedef unsigned int u32]: a value is
    kept as a [Z] and every operation reduces modulo the width. *)
Definition u8 (z : Z) : Z := z mod 2 ^ 8.
Definition u32 (z : Z) : Z := z mod 2 ^ 32.

Definition u32_add (a b : Z) : Z := u32 (a + b).
Definition u32_sub (a b : Z) : Z := u32 (a - b).
Definition u32_mul (a b : Z) : Z := u32 (a * b).
(** [~a] on a 32-bit unsigned operand. *)
Definition u32_not (a : Z) : Z := u32 (Z.lnot a).

(** [unsigned long long] product, as in [sector * 2048ULL]. *)
Definition u64_mul (a b : Z) : Z := (a * b) mod 2 ^ 64.

(** [++n] on a [u8] loop counter. *)
Definition u8_incr (n : Z) : Z := u8 (n + 1).

(** [!!x] *)
Definition to_bool (x : Z) : bool := negb (x =? 0).

End Int.
Import Int.

(** ** linux/cdrom.h: constants and the structures the ioctls exchange *)

Module Cdrom.

Definition CD_FRAMESIZE_RAW : Z := 2352.
Definition CDROM_LBA : Z := 1.
Definition CDROM_MSF : Z := 2.
Definition CDROM_LEADOUT : Z := 170.            (* 0xAA *)
Definition DVD_STRUCT_PHYSICAL : Z := 0.
Definition CDS_DISC_OK : Z := 4.
Definition CDSL_CURRENT : Z := 2147483647.      (* INT_MAX *)
Definition O_RDONLY : Z := 0.
Definition O_NONBLOCK : Z := 2048.              (* 04000 *)

(** [struct dvd_layer], the fields [ReadDVDInfo] reads. *)
Record dvd_layer := {
  track_path : Z;
  nlayers : Z;
  start_sector : Z;
  end_sector : Z;
  end_sector_l0 : Z
}.

(** [struct cdrom_tochdr] *)
Record cdrom_tochdr := {
  cdth_trk0 : Z;
  cdth_trk1 : Z
}.

(** [struct cdrom_tocentry]; [cdte_track] and [cdte_format] are the
    request, the other fields are filled by the driver. *)
Record cdrom_tocentry := {
  cdte_track : Z;
  cdte_adr : Z;
  cdte_ctrl : Z;
  cdte_format : Z;
  cdte_addr_lba : Z;
  cdte_datamode : Z
}.

(** What a successful CDROMREADTOCENTRY writes back. *)
Record tocentry_reply := {
  r_adr : Z;
  r_ctrl : Z;
  r_lba : Z;
  r_datamode : Z
}.

Definition fill_tocentry (e : cdrom_tocentry) (r : tocentry_reply)
  : cdrom_tocentry :=
  {| cdte_track := cdte_track e;
     cdte_adr := r_adr r;
     cdte_ctrl := r_ctrl r;
     cdte_format := cdte_format e;
     cdte_addr_lba := r_lba r;
     cdte_datamode := r_datamode r |}.

Definition set_cdte_track (n : Z) (e : cdrom_tocentry) : cdrom_tocentry :=
  {| cdte_track := n;
     cdte_adr := cdte_adr e;
     cdte_ctrl := cdte_ctrl e;
     cdte_format := cdte_format e;
     cdte_addr_lba := cdte_addr_lba e;
     cdte_datamode := cdte_datamode e |}.

(** [cdrom_tocentry entry{}; entry.cdte_format = CDROM_LBA;] *)
Definition tocentry_init : cdrom_tocentry :=
  {| cdte_track := 0; cdte_adr := 0; cdte_ctrl := 0;
     cdte_format := CDROM_LBA; cdte_addr_lba := 0; cdte_datamode := 0 |}.

End Cdrom.
Import Cdrom.

(** ** The operating system *)

(** A user buffer ([u8*]): the byte stored at each offset. *)
Definition buffer := Z -> Z.

(** The system calls the class issues, with their scalar arguments. *)
Inductive call : Type :=
| Open (path : string) (flags : Z)
| Close (fd : Z)
| Pread (fd nbytes offset : Z)
| DVD_READ_STRUCT (fd type layer_num : Z)
| CDROMREADTOCHDR (fd : Z)
| CDROMREADTOCENTRY (fd track format : Z)
| CDROMREADRAW (fd min sec frame : Z)
| CDROM_DRIVE_STATUS (fd slot : Z).

Definition trace := list call.

(** Every answer may depend on the calls issued before it.  An ioctl that
    returns -1 is [None]; one that succeeds yields what it wrote into its
    argument. *)
Record OS := {
  sys_open : trace -> string -> Z -> Z;
  sys_errno : trace -> Z;
  sys_pread : trace -> Z -> buffer -> Z -> Z -> Z * buffer;
  io_dvd_read_struct : trace -> Z -> Z -> Z -> option (Z -> dvd_layer);
  io_read_toc_hdr : trace -> Z -> option cdrom_tochdr;
  io_read_toc_entry : trace -> Z -> Z -> Z -> option tocentry_reply;
  io_read_raw : trace -> Z -> Z * Z * Z -> option buffer;
  io_drive_status : trace -> Z -> Z -> Z
}.

(** ** The session object *)

(** [struct toc_entry] of the disc reader. *)
Record toc_entry := {
  lba : Z;
  track : Z;
  adr : Z;
  control : Z
}.

Record IOCtlSrc := {
  m_filename : string;
  m_device : Z;
  m_sectors : Z;
  m_layer_break : Z;
  m_media_type : Z;
  m_toc : list toc_entry
}.

Definition set_m_device (v : Z) (s : IOCtlSrc) : IOCtlSrc :=
  {| m_filename := m_filename s; m_device := v; m_sectors := m_sectors s;
     m_layer_break := m_layer_break s; m_media_type := m_media_type s;
     m_toc := m_toc s |}.

Definition set_m_sectors (v : Z) (s : IOCtlSrc) : IOCtlSrc :=
  {| m_filename := m_filename s; m_device := m_device s; m_sectors := v;
     m_layer_break := m_layer_break s; m_media_type := m_media_type s;
     m_toc := m_toc s |}.

Definition set_m_layer_break (v : Z) (s : IOCtlSrc) : IOCtlSrc :=
  {| m_filename := m_filename s; m_device := m_device s;
     m_sectors := m_sectors s; m_layer_break := v;
     m_media_type := m_media_type s; m_toc := m_toc s |}.

Definition set_m_media_type (v : Z) (s : IOCtlSrc) : IOCtlSrc :=
  {| m_filename := m_filename s; m_device := m_device s;
     m_sectors := m_sectors s; m_layer_break := m_layer_break s;
     m_media_type := v; m_toc := m_toc s |}.

Definition set_m_toc (v : list toc_entry) (s : IOCtlSrc) : IOCtlSrc :=
  {| m_filename := m_filename s; m_device := m_device s;
     m_sectors := m_sectors s; m_layer_break := m_layer_break s;
     m_media_type := m_media_type s; m_toc := v |}.

(** Modelled from the spec: the [Error] sink of common/Error.h and
    [Error::SetErrno], which are not part of the sources at hand.  The sink
    is optional; when present and the open step fails it receives the OS
    error code. *)
Inductive Error : Type :=
| ErrorNone
| ErrorErrno (code : Z).

Definition SetErrno (error : option Error) (err : Z) : option Error :=
  match error with
  | None => None
  | Some _ => Some (ErrorErrno err)
  end.

Definition GetSectorCount (s : IOCtlSrc) : Z := m_sectors s.
Definition GetLayerBreakAddress (s : IOCtlSrc) : Z := m_layer_break s.
Definition GetMediaType (s : IOCtlSrc) : Z := m_media_type s.
Definition ReadTOC (s : IOCtlSrc) : list toc_entry := m_toc s.

(** [SetSpindleSpeed] has an empty body. *)
Definition SetSpindleSpeed (restore_defaults : bool) (s : IOCtlSrc) : unit := tt.

Section Methods.

Variable os : OS.

(** [lba_to_msf] is declared in CDVD/CDVD.h; the reader only passes its
    result on to the driver. *)
Variable lba_to_msf : Z -> Z * Z * Z.

Definition ReadDVDInfo (s : IOCtlSrc) (log : trace)
  : bool * IOCtlSrc * trace :=
  let fd := m_device s in
  let log1 := log ++ [DVD_READ_STRUCT fd DVD_STRUCT_PHYSICAL 0] in
  match io_dvd_read_struct os log fd DVD_STRUCT_PHYSICAL 0 with
  | None => (false, s, log1)
  | Some layer =>
    let start := start_sector (layer 0) in
    let end_ := end_sector (layer 0) in
    if nlayers (layer 0) =? 0 then
      (* Single layer *)
      let s := set_m_media_type 0 s in
      let s := set_m_layer_break 0 s in
      let s := set_m_sectors (u32_add (u32_sub end_ start) 1) s in
      (true, s, log1)
    else if track_path (layer 0) =? 0 then
      (* Dual layer, Parallel Track Path *)
      let log2 := log1 ++ [DVD_READ_STRUCT fd DVD_STRUCT_PHYSICAL 1] in
      match io_dvd_read_struct os log1 fd DVD_STRUCT_PHYSICAL 1 with
      | None => (false, s, log2)
      | Some layer' =>
        let layer1_start := start_sector (layer' 1) in
        let layer1_end := end_sector (layer' 1) in
        let s := set_m_media_type 1 s in
        let s := set_m_layer_break (u32_sub end_ start) s in
        let s := set_m_sectors
                   (u32_add
                      (u32_sub
                         (u32_add (u32_add (u32_sub end_ start) 1) layer1_end)
                         layer1_start)
                      1) s in
        (true, s, log2)
      end
    else
      (* Dual layer, Opposite Track Path *)
      let end_layer0 := end_sector_l0 (layer 0) in
      let s := set_m_media_type 2 s in
      let s := set_m_layer_break (u32_sub end_layer0 start) s in
      let s := set_m_sectors
                 (u32_add
                    (u32_sub
                       (u32_add (u32_add (u32_sub end_layer0 start) 1) end_)
                       (Z.land (u32_not end_layer0) 16777215))
                    1) s in
      (true, s, log1)
  end.

(** The track loop of [ReadCDInfo]:
    [for (u8 n = header.cdth_trk0; n <= header.cdth_trk1; ++n)].
    The counter is a [u8], so [++n] wraps; [fuel] bounds the number of
    iterations and [None] means the bound was reached. *)
Fixpoint toc_loop (fuel : nat) (trk1 n : Z) (entry : cdrom_tocentry)
    (s : IOCtlSrc) (log : trace)
  : option (cdrom_tocentry * IOCtlSrc * trace) :=
  if n <=? trk1 then
    match fuel with
    | O => None
    | S fuel' =>
      let entry := set_cdte_track n entry in
      let log1 := log ++ [CDROMREADTOCENTRY (m_device s) (cdte_track entry)
                                            (cdte_format entry)] in
      match io_read_toc_entry os log (m_device s) (cdte_track entry)
                              (cdte_format entry) with
      | Some r =>
        let entry := fill_tocentry entry r in
        let s := set_m_toc
                   (m_toc s ++ [{| lba := u32 (cdte_addr_lba entry);
                                   track := cdte_track entry;
                                   adr := cdte_adr entry;
                                   control := cdte_ctrl entry |}]) s in
        toc_loop fuel' trk1 (u8_incr n) entry s log1
      | None => toc_loop fuel' trk1 (u8_incr n) entry s log1
      end
    end
  else Some (entry, s, log).

Definition ReadCDInfo (fuel : nat) (s : IOCtlSrc) (log : trace)
  : option (bool * IOCtlSrc * trace) :=
  let log1 := log ++ [CDROMREADTOCHDR (m_device s)] in
  match io_read_toc_hdr os log (m_device s) with
  | None => Some (false, s, log1)
  | Some header =>
    let entry := tocentry_init in
    let s := set_m_toc [] s in
    match toc_loop fuel (cdth_trk1 header) (cdth_trk0 header) entry s log1 with
    | None => None
    | Some (entry, s, log2) =>
      let entry := set_cdte_track CDROM_LEADOUT entry in
      let log3 := log2 ++ [CDROMREADTOCENTRY (m_device s) (cdte_track entry)
                                             (cdte_format entry)] in
      match io_read_toc_entry os log2 (m_device s) (cdte_track entry)
                              (cdte_format entry) with
      | None => Some (false, s, log3)
      | Some r =>
        let entry := fill_tocentry entry r in
        let s := set_m_sectors (u32 (cdte_addr_lba entry)) s in
        let s := set_m_media_type (-1) s in
        Some (true, s, log3)
      end
    end
  end.

Definition Reopen (fuel : nat) (error : option Error) (s : IOCtlSrc)
    (log : trace)
  : option (bool * option Error * IOCtlSrc * trace) :=
  let log0 := if m_device s =? -1 then log
              else log ++ [Close (m_device s)] in
  let flags := Z.lor O_RDONLY O_NONBLOCK in
  let fd := sys_open os log0 (m_filename s) flags in
  let log1 := log0 ++ [Open (m_filename s) flags] in
  let s := set_m_device fd s in
  if m_device s =? -1 then
    Some (false, SetErrno error (sys_errno os log1), s, log1)
  else
    (* DVD detection MUST be first on Linux *)
    let '(dvd, s, log2) := ReadDVDInfo s log1 in
    if dvd then
      let _ := SetSpindleSpeed false s in
      Some (true, error, s, log2)
    else
      match ReadCDInfo fuel s log2 with
      | None => None
      | Some (cd, s, log3) =>
        let _ := if cd then SetSpindleSpeed false s else tt in
        Some (true, error, s, log3)
      end.

Definition DiscReady (fuel : nat) (s : IOCtlSrc) (log : trace)
  : option (bool * IOCtlSrc * trace) :=
  if m_device s =? -1 then Some (false, s, log)
  else
    (* CDSL_CURRENT must be used - 0 will cause the drive tray to close. *)
    let log1 := log ++ [CDROM_DRIVE_STATUS (m_device s) CDSL_CURRENT] in
    if io_drive_status os log (m_device s) CDSL_CURRENT =? CDS_DISC_OK then
      if negb (to_bool (m_sectors s)) then
        match Reopen fuel None s log1 with
        | None => None
        | Some (_, _, s, log2) => Some (to_bool (m_sectors s), s, log2)
        end
      else Some (to_bool (m_sectors s), s, log1)
    else
      let s := set_m_sectors 0 s in
      let s := set_m_layer_break 0 s in
      let s := set_m_media_type 0 s in
      Some (to_bool (m_sectors s), s, log1).

(** [ssize_t] and the file offset are 64 bits wide; [2048 * count] is an
    [int] times a [u32], hence a [u32] product. *)
Definition ReadSectors2048 (s : IOCtlSrc) (sector count : Z) (buf : buffer)
    (log : trace)
  : bool * buffer * trace :=
  let bytes_to_read := u32_mul 2048 count in
  let offset := u64_mul sector 2048 in
  let '(bytes_read, buf') :=
    sys_pread os log (m_device s) buf bytes_to_read offset in
  (bytes_read =? bytes_to_read, buf',
   log ++ [Pread (m_device s) bytes_to_read offset]).

(** [memcpy(dst + off, src, n)] *)
Definition memcpy (dst : buffer) (off : Z) (src : buffer) (n : Z) : buffer :=
  fun i => if (off <=? i) && (i <? off + n) then src (i - off) else dst i.

(** The loop of [ReadSectors2352]; [k] iterations remain, [n] is the loop
    counter and [off] the distance the output pointer has advanced. *)
Fixpoint raw_loop (k : nat) (fd sector n : Z) (buf : buffer) (off : Z)
    (log : trace)
  : bool * buffer * trace :=
  match k with
  | O => (true, buf, log)
  | S k' =>
    let lba := u32_add sector n in
    let '(m, sec, f) := lba_to_msf lba in
    let log1 := log ++ [CDROMREADRAW fd m sec f] in
    match io_read_raw os log fd (m, sec, f) with
    | None => (false, buf, log1)
    | Some data =>
      raw_loop k' fd sector (n + 1)
               (memcpy buf off data CD_FRAMESIZE_RAW)
               (off + CD_FRAMESIZE_RAW) log1
    end
  end.

Definition ReadSectors2352 (s : IOCtlSrc) (sector count : Z) (buf : buffer)
    (log : trace)
  : bool * buffer * trace :=
  raw_loop (Z.to_nat count) (m_device s) sector 0 buf 0 log.

End Methods.

(** ** Intermediate states of [Reopen]

    Names for the trace before and after the [open] call of [Reopen] and
    for the descriptor it returns. *)

Definition open_flags : Z := Z.lor O_RDONLY O_NONBLOCK.

Definition log_before_open (s : IOCtlSrc) (log : trace) : trace :=
  if m_device s =? -1 then log else log ++ [Close (m_device s)].

Definition log_after_open (s : IOCtlSrc) (log : trace) : trace :=
  log_before_open s log ++ [Open (m_filename s) open_flags].

Definition opened_fd (os : OS) (s : IOCtlSrc) (log : trace) : Z :=
  sys_open os (log_before_open s log) (m_filename s) open_flags.

(** The calls that belong to the CD-TOC probe. *)
Definition cd_probe_call (c : call) : bool :=
  match c with
  | CDROMREADTOCHDR _ | CDROMREADTOCENTRY _ _ _ => true
  | _ => false
  end.

(** ** What the track loop of the CD probe is expected to do

    The track numbers [n, n+1, ..., n+k-1], the calls that read them in LBA
    mode, the driver's answer to each of them, and the TOC built from the
    answers. *)

Definition zrange (n : Z) (k : nat) : list Z :=
  map (fun i => n + Z.of_nat i) (seq 0 k).

Definition entry_calls (fd n : Z) (k : nat) : list call :=
  map (fun t => CDROMREADTOCENTRY fd t CDROM_LBA) (zrange n k).

Definition track_reply (os : OS) (fd : Z) (log : trace) (n t : Z)
  : option tocentry_reply :=
  io_read_toc_entry os (log ++ entry_calls fd n (Z.to_nat (t - n))) fd t
                    CDROM_LBA.

Definition toc_of (os : OS) (fd : Z) (log : trace) (n : Z) (k : nat)
  : list toc_entry :=
  flat_map
    (fun t => match track_reply os fd log n t with
              | Some r => [{| lba := u32 (r_lba r); track := t;
                              adr := r_adr r; control := r_ctrl r |}]
              | None => []
              end)
    (zrange n k).

(** A TOC header whose track numbers the [u8] counter of the track loop can
    run through: the last track number is below 255. *)
Definition enumerable (h : cdrom_tochdr) : Prop :=
  0 <= cdth_trk0 h /\ cdth_trk1 h < 255.

Definition enumerable_reply (r : option cdrom_tochdr) : Prop :=
  match r with
  | None => True
  | Some h => enumerable h
  end.

(** A [Reopen] whose CD probe, when it is reached, is given an enumerable
    header. *)
Definition reopen_enumerable (os : OS) (s : IOCtlSrc) (log : trace) : Prop :=
  let fd := opened_fd os s log in
  let '(dvd, s2, log2) :=
    ReadDVDInfo os (set_m_device fd s) (log_after_open s log) in
  fd = -1 \/ dvd = true \/
  enumerable_reply (io_read_toc_hdr os log2 (m_device s2)).

(** ** What the loop of [ReadSectors2352] is expected to do

    The raw-read call for the [n]-th sector, the calls for the sectors
    [n .. n+k-1], and the driver's answer to the call for sector [t]. *)

Definition raw_call (lba_to_msf : Z -> Z * Z * Z) (fd sector n : Z) : call :=
  let '(m, sec, f) := lba_to_msf (u32_add sector n) in
  CDROMREADRAW fd m sec f.

Definition raw_calls (lba_to_msf : Z -> Z * Z * Z) (fd sector n : Z) (k : nat)
  : list call :=
  map (raw_call lba_to_msf fd sector) (zrange n k).

Definition raw_reply (os : OS) (lba_to_msf : Z -> Z * Z * Z)
    (fd sector : Z) (log : trace) (n t : Z) : option buffer :=
  io_read_raw os (log ++ raw_calls lba_to_msf fd sector n (Z.to_nat (t - n)))
              fd (lba_to_msf (u32_add sector t)).

(** ** Sample drives

    Concrete operating systems on which the methods can be run. *)

Definition no_layer : dvd_layer :=
  {| track_path := 0; nlayers := 0; start_sector := 0; end_sector := 0;
     end_sector_l0 := 0 |}.

Definition layers (l0 l1 : dvd_layer) : Z -> dvd_layer :=
  fun i => if i =? 0 then l0 else if i =? 1 then l1 else no_layer.

(** A drive whose device node opens as [fd] (or fails with [errno] when
    [fd] is -1), with the given answers to the probes. *)
Definition drive (fd errno status : Z)
    (dvd : Z -> option (Z -> dvd_layer))
    (hdr : option cdrom_tochdr)
    (entry : Z -> option tocentry_reply)
    (raw : Z * Z * Z -> option buffer)
    (pread : Z -> Z -> Z * buffer) : OS :=
  {| sys_open := fun _ _ _ => fd;
     sys_errno := fun _ => errno;
     sys_pread := fun _ _ _ nbytes offset => pread nbytes offset;
     io_dvd_read_struct := fun _ _ _ layer_num => dvd layer_num;
     io_read_toc_hdr := fun _ _ => hdr;
     io_read_toc_entry := fun _ _ trk _ => entry trk;
     io_read_raw := fun _ _ msf => raw msf;
     io_drive_status := fun _ _ _ => status |}.

Definition no_dvd : Z -> option (Z -> dvd_layer) := fun _ => None.
Definition no_entry : Z -> option tocentry_reply := fun _ => None.
Definition no_raw : Z * Z * Z -> option buffer := fun _ => None.
Definition zeros : buffer := fun _ => 0.
Definition pread_fails : Z -> Z -> Z * buffer := fun _ _ => (-1, zeros).

(** A single-layer DVD-5. *)
Definition dvd5_layer : dvd_layer :=
  {| track_path := 0; nlayers := 0; start_sector := 196608;
     end_sector := 2495103; end_sector_l0 := 0 |}.
Definition dvd5_drive : OS :=
  drive 3 0 CDS_DISC_OK (fun _ => Some (layers dvd5_layer no_layer)) None
        no_entry no_raw pread_fails.

(** A dual-layer disc with parallel track path. *)
Definition ptp_layer0 : dvd_layer :=
  {| track_path := 0; nlayers := 1; start_sector := 196608;
     end_sector := 2283519; end_sector_l0 := 0 |}.
Definition ptp_layer1 : dvd_layer :=
  {| track_path := 0; nlayers := 1; start_sector := 196608;
     end_sector := 2000000; end_sector_l0 := 0 |}.
Definition ptp_drive : OS :=
  drive 3 0 CDS_DISC_OK
        (fun n => if n =? 0 then Some (layers ptp_layer0 no_layer)
                  else Some (layers ptp_layer0 ptp_layer1))
        None no_entry no_raw pread_fails.
(** The same disc on a drive that cannot describe layer 1. *)
Definition ptp_drive_l1_fails : OS :=
  drive 3 0 CDS_DISC_OK
        (fun n => if n =? 0 then Some (layers ptp_layer0 no_layer) else None)
        None no_entry no_raw pread_fails.

(** A dual-layer disc with opposite track path: layer 0 ends at 0x20FFFF,
    layer 1 runs from 0xDF0000 to 0xFCFFFF. *)
Definition otp_layer0 : dvd_layer :=
  {| track_path := 1; nlayers := 1; start_sector := 196608;
     end_sector := 16580607; end_sector_l0 := 2162687 |}.
Definition otp_drive : OS :=
  drive 3 0 CDS_DISC_OK (fun _ => Some (layers otp_layer0 no_layer)) None
        no_entry no_raw pread_fails.

(** A freshly constructed session on [/dev/sr0], and the same session with
    an open handle. *)
Definition fresh : IOCtlSrc :=
  {| m_filename := "/dev/sr0"; m_device := -1; m_sectors := 0;
     m_layer_break := 0; m_media_type := 0; m_toc := [] |}.
Definition opened : IOCtlSrc := set_m_device 3 fresh.

(** A disc with three tracks whose second track cannot be read, and a drive
    that reports 255 as the last track number. *)
Definition cd_entry (trk : Z) : option tocentry_reply :=
  if trk =? 2 then None
  else if trk =? CDROM_LEADOUT
       then Some {| r_adr := 1; r_ctrl := 4; r_lba := 300000; r_datamode := 0 |}
       else Some {| r_adr := 1; r_ctrl := 4; r_lba := (trk - 1) * 1000;
                    r_datamode := 0 |}.

Definition cd_drive : OS :=
  drive 3 0 CDS_DISC_OK no_dvd (Some {| cdth_trk0 := 1; cdth_trk1 := 3 |})
        cd_entry no_raw pread_fails.

Definition cd_drive_255 : OS :=
  drive 3 0 CDS_DISC_OK no_dvd (Some {| cdth_trk0 := 1; cdth_trk1 := 255 |})
        cd_entry no_raw pread_fails.

(** A drive without a readable disc, and a session that still holds the TOC
    and geometry of an earlier disc. *)
Definition empty_drive : OS :=
  drive 3 0 1 no_dvd None no_entry no_raw pread_fails.

Definition stale : IOCtlSrc :=
  {| m_filename := "/dev/sr0"; m_device := 3; m_sectors := 300000;
     m_layer_break := 0; m_media_type := -1;
     m_toc := [{| lba := 0; track := 1; adr := 1; control := 4 |}] |}.

(** A device node that cannot be opened (ENOENT). *)
Definition no_drive : OS :=
  drive (-1) 2 1 no_dvd None no_entry no_raw pread_fails.

(** Modelled from the spec: [lba_to_msf] of CDVD/CDVD.h, which converts a
    logical block address to minutes, seconds and frames; the usual
    conversion, 75 frames to the second after a pregap of 150 frames. *)
Definition msf_of_lba (lba : Z) : Z * Z * Z :=
  ((lba + 150) / 4500, ((lba + 150) / 75) mod 60, (lba + 150) mod 75).

(** A disc whose frames 0 and 1 of any second can be read (frame [f] is
    filled with the byte [f + 1]) and whose frame 2 cannot; reads in 2048-byte
    mode transfer all that is asked for. *)
Definition raw_frames (msf : Z * Z * Z) : option buffer :=
  let '(_, _, f) := msf in
  if f =? 2 then None else Some (fun _ => f + 1).

Definition pread_full : Z -> Z -> Z * buffer := fun nbytes _ => (nbytes, zeros).

(** A read that stops one byte short. *)
Definition pread_short : Z -> Z -> Z * buffer :=
  fun nbytes _ => (nbytes - 1, zeros).

Definition disc_drive : OS :=
  drive 3 0 CDS_DISC_OK no_dvd None no_entry raw_frames pread_full.

Definition short_drive : OS :=
  drive 3 0 CDS_DISC_OK no_dvd None no_entry raw_frames pread_short.

(** ** Destruction, descriptors and classes of calls *)

Section Destruction.

Variable os : OS.

(** [IOCtlSrc::~IOCtlSrc]: an open handle is closed; the trace after the
    destructor has run. *)
Definition destroy (s : IOCtlSrc) (log : trace) : trace :=
  if m_device s =? -1 then log
  else
    let _ := SetSpindleSpeed true s in
    log ++ [Close (m_device s)].

(** The descriptors a trace leaves open: every [Open] that did not return -1
    adds the descriptor it returned, every [Close] releases one. *)
Fixpoint release (fd : Z) (fds : list Z) : list Z :=
  match fds with
  | [] => []
  | x :: fds' => if x =? fd then fds' else x :: release fd fds'
  end.

Definition handle_step (prefix : trace) (c : call) (fds : list Z) : list Z :=
  match c with
  | Open path flags =>
    let fd := sys_open os prefix path flags in
    if fd =? -1 then fds else fd :: fds
  | Close fd => release fd fds
  | _ => fds
  end.

Fixpoint replay (prefix rest : trace) (fds : list Z) : list Z :=
  match rest with
  | [] => fds
  | c :: rest' => replay (prefix ++ [c]) rest' (handle_step prefix c fds)
  end.

Definition open_descriptors (log : trace) : list Z := replay [] log [].

End Destruction.

(** The descriptors a session holds: its handle, if it has one. *)
Definition held (s : IOCtlSrc) : list Z :=
  if m_device s =? -1 then [] else [m_device s].

(** The calls of the DVD probe on the handle [fd]: physical-structure
    queries. *)
Definition dvd_call (fd : Z) (c : call) : bool :=
  match c with
  | DVD_READ_STRUCT fd' type _ => (fd' =? fd) && (type =? DVD_STRUCT_PHYSICAL)
  | _ => false
  end.

(** The calls of the CD probe on the handle [fd]: the TOC header read and
    TOC entry reads in LBA mode. *)
Definition toc_call (fd : Z) (c : call) : bool :=
  match c with
  | CDROMREADTOCHDR fd' => fd' =? fd
  | CDROMREADTOCENTRY fd' _ format => (fd' =? fd) && (format =? CDROM_LBA)
  | _ => false
  end.

(** The calls of either probe. *)
Definition probe_call (fd : Z) (c : call) : bool :=
  dvd_call fd c || toc_call fd c.

(** A status query for the current slot, or a call of [Reopen] on the device
    path [path]: closing, opening read-only and non-blocking, probing. *)
Definition session_call (path : string) (c : call) : bool :=
  match c with
  | CDROM_DRIVE_STATUS _ slot => slot =? CDSL_CURRENT
  | Open path' flags => String.eqb path' path && (flags =? open_flags)
  | Close _ | DVD_READ_STRUCT _ _ _ | CDROMREADTOCHDR _
  | CDROMREADTOCENTRY _ _ _ => true
  | Pread _ _ _ | CDROMREADRAW _ _ _ _ => false
  end.

Definition is_status_call (c : call) : bool :=
  match c with
  | CDROM_DRIVE_STATUS _ _ => true
  | _ => false
  end.

(** Geometry fields as their types allow them: two [u32] and a media type
    among -1 (CD), 0, 1 and 2. *)
Definition geometry_ok (s : IOCtlSrc) : Prop :=
  0 <= m_sectors s < 2 ^ 32 /\
  0 <= m_layer_break s < 2 ^ 32 /\
  In (m_media_type s) [-1; 0; 1; 2].

(** Further sample drives: a disc neither probe can read, a device node that
    has gone away while the drive still reports a disc, and a TOC header
    whose first track number lies above the last. *)
Definition unreadable_drive : OS :=
  drive 3 0 CDS_DISC_OK no_dvd None no_entry no_raw pread_fails.

Definition vanished_drive : OS :=
  drive (-1) 2 CDS_DISC_OK no_dvd None no_entry no_raw pread_fails.

Definition cd_drive_no_tracks : OS :=
  drive 3 0 CDS_DISC_OK no_dvd (Some {| cdth_trk0 := 5; cdth_trk1 := 3 |})
        cd_entry no_raw pread_fails.

(** A caller's use of a session: [Reopen] and [DiscReady] calls in any
    order, each started where the one before it ended. *)
Inductive session_op : Type :=
| OpReopen (error : option Error)
| OpDiscReady.

Fixpoint run_ops (os : OS) (fuel : nat) (ops : list session_op)
    (s : IOCtlSrc) (log : trace) : option (IOCtlSrc * trace) :=
  match ops with
  | [] => Some (s, log)
  | OpReopen error :: ops' =>
    match Reopen os fuel error s log with
    | Some (_, _, s', log') => run_ops os fuel ops' s' log'
    | None => None
    end
  | OpDiscReady :: ops' =>
    match DiscReady os fuel s log with
    | Some (_, s', log') => run_ops os fuel ops' s' log'
    | None => None
    end
  end.

(** A drive that is empty at the first call and holds the three-track CD
    from then on. *)
Definition swapped_drive : OS :=
  {| sys_open := fun _ _ _ => 3;
     sys_errno := fun _ => 0;
     sys_pread := fun _ _ _ nbytes offset => pread_fails nbytes offset;
     io_dvd_read_struct := fun _ _ _ _ => None;
     io_read_toc_hdr :=
       fun _ _ => Some {| cdth_trk0 := 1; cdth_trk1 := 3 |};
     io_read_toc_entry := fun _ _ trk _ => cd_entry trk;
     io_read_raw := fun _ _ _ => None;
     io_drive_status :=
       fun log _ _ => match log with [] => 1 | _ :: _ => CDS_DISC_OK end |}.

(** * Properties *)

(** ** Arithmetic on [u32] *)

Lemma u32_range : forall z, 0 <= u32 z < 2 ^ 32.
Proof. intro z. unfold u32. apply Z.mod_pos_bound. reflexivity. Qed.

Lemma u32_small : forall z, 0 <= z < 2 ^ 32 -> u32 z = z.
Proof. intros z H. unfold u32. apply Z.mod_small. exact H. Qed.

Lemma u32_add_idem_l : forall a b, u32 (u32 a + b) = u32 (a + b).
Proof. intros. unfold u32. apply Zplus_mod_idemp_l. Qed.

Lemma u32_add_idem_r : forall a b, u32 (a + u32 b) = u32 (a + b).
Proof. intros. unfold u32. apply Zplus_mod_idemp_r. Qed.

Lemma u32_sub_idem_l : forall a b, u32 (u32 a - b) = u32 (a - b).
Proof. intros. unfold u32. apply Zminus_mod_idemp_l. Qed.

Lemma u32_sub_idem_r : forall a b, u32 (a - u32 b) = u32 (a - b).
Proof. intros. unfold u32. apply Zminus_mod_idemp_r. Qed.

(** Pushes every inner reduction of a [u32] expression to the outside. *)
Ltac u32_norm :=
  unfold u32_add, u32_sub;
  repeat (rewrite_strat
            (innermost (choice (choice u32_add_idem_l u32_add_idem_r)
                               (choice u32_sub_idem_l u32_sub_idem_r)))).

(** The complement of a 32-bit value, seen as a number. *)
Lemma u32_not_value : forall a, 0 <= a < 2 ^ 32 -> u32_not a = 2 ^ 32 - 1 - a.
Proof.
  intros a H. unfold u32_not, u32, Z.lnot.
  replace (Z.pred (- a)) with (2 ^ 32 - 1 - a + -1 * 2 ^ 32) by lia.
  rewrite Z.mod_add by lia. apply Z.mod_small. lia.
Qed.

Section DVDProbe.

Variable os : OS.

(** A session after the three geometry assignments of a DVD branch. *)
Lemma geometry_after_assignments :
  forall mt lb sc s,
    let s' := set_m_sectors sc (set_m_layer_break lb (set_m_media_type mt s)) in
    GetMediaType s' = mt /\ GetLayerBreakAddress s' = lb /\
    GetSectorCount s' = sc /\ m_device s' = m_device s /\
    m_toc s' = m_toc s /\ m_filename s' = m_filename s.
Proof. intros. repeat split. Qed.

(** C9.  A DVD probe whose layer-0 descriptor reports no further layer
    succeeds and sets the media type to 0, the layer break to 0 and the
    sector count to [end - start + 1] (in [u32] arithmetic; the plain integer
    when the extent is one a disc can have). *)
Theorem ReadDVDInfo_single_layer :
  forall (s : IOCtlSrc) (log : trace) (layer : Z -> dvd_layer),
    io_dvd_read_struct os log (m_device s) DVD_STRUCT_PHYSICAL 0 = Some layer ->
    nlayers (layer 0) = 0 ->
    let start := start_sector (layer 0) in
    let end_ := end_sector (layer 0) in
    let '(ok, s', log') := ReadDVDInfo os s log in
    ok = true /\
    log' = log ++ [DVD_READ_STRUCT (m_device s) DVD_STRUCT_PHYSICAL 0] /\
    GetMediaType s' = 0 /\
    GetLayerBreakAddress s' = 0 /\
    GetSectorCount s' = u32 (end_ - start + 1) /\
    (0 <= end_ - start + 1 < 2 ^ 32 -> GetSectorCount s' = end_ - start + 1).
Proof.
  intros s log layer Hio Hn start end_.
  unfold ReadDVDInfo. rewrite Hio, Hn. cbn [Z.eqb].
  cbv beta zeta.
  assert (Hsc : u32_add (u32_sub (end_sector (layer 0)) (start_sector (layer 0))) 1
                = u32 (end_ - start + 1)).
  { subst start end_. u32_norm. reflexivity. }
  repeat split; try exact Hsc.
  intro Hr. cbn. rewrite Hsc. apply u32_small. exact Hr.
Qed.

(** The layer-1 start address of an opposite-track disc: the complement of
    the layer-0 end address within 24 bits. *)
Lemma complement_24 :
  forall L0, 0 <= L0 < 2 ^ 32 ->
    Z.land (u32_not L0) 16777215 = 16777215 - L0 mod 2 ^ 24.
Proof.
  intros L0 H. rewrite u32_not_value by exact H.
  change 16777215 with (Z.ones 24). rewrite Z.land_ones by lia.
  change (Z.ones 24) with (2 ^ 24 - 1).
  pose proof (Z.mod_pos_bound L0 (2 ^ 24) ltac:(lia)) as Hb.
  pose proof (Z.div_mod L0 (2 ^ 24) ltac:(lia)) as Hd.
  replace (2 ^ 32 - 1 - L0)
    with (2 ^ 24 - 1 - L0 mod 2 ^ 24 + (255 - L0 / 2 ^ 24) * 2 ^ 24) by lia.
  rewrite Z.mod_add by lia. apply Z.mod_small. lia.
Qed.

(** C2.  A DVD probe whose layer-0 descriptor reports a further layer on a
    parallel track path queries layer 1.  When that query fails the probe
    returns false with the session untouched, and [Reopen] goes on with the
    CD probe; when it succeeds the media type is 1, the layer break
    [e0 - s0] and the sector count [(e0 - s0 + 1) + (e1 - s1 + 1)]. *)
Theorem ReadDVDInfo_parallel :
  forall (s : IOCtlSrc) (log : trace) (layer : Z -> dvd_layer),
    io_dvd_read_struct os log (m_device s) DVD_STRUCT_PHYSICAL 0 = Some layer ->
    nlayers (layer 0) <> 0 ->
    track_path (layer 0) = 0 ->
    let fd := m_device s in
    let log1 := log ++ [DVD_READ_STRUCT fd DVD_STRUCT_PHYSICAL 0] in
    let log2 := log1 ++ [DVD_READ_STRUCT fd DVD_STRUCT_PHYSICAL 1] in
    let s0 := start_sector (layer 0) in
    let e0 := end_sector (layer 0) in
    match io_dvd_read_struct os log1 fd DVD_STRUCT_PHYSICAL 1 with
    | None =>
      ReadDVDInfo os s log = (false, s, log2) /\
      (forall fuel error s_pre log_pre,
          opened_fd os s_pre log_pre <> -1 ->
          set_m_device (opened_fd os s_pre log_pre) s_pre = s ->
          log_after_open s_pre log_pre = log ->
          Reopen os fuel error s_pre log_pre =
          match ReadCDInfo os fuel s log2 with
          | None => None
          | Some (_, s', log') => Some (true, error, s', log')
          end)
    | Some layer' =>
      let s1 := start_sector (layer' 1) in
      let e1 := end_sector (layer' 1) in
      let '(ok, s', log') := ReadDVDInfo os s log in
      ok = true /\ log' = log2 /\
      GetMediaType s' = 1 /\
      GetLayerBreakAddress s' = u32 (e0 - s0) /\
      GetSectorCount s' = u32 ((e0 - s0 + 1) + (e1 - s1 + 1)) /\
      (0 <= e0 - s0 -> 0 <= e1 - s1 ->
       (e0 - s0 + 1) + (e1 - s1 + 1) < 2 ^ 32 ->
       GetLayerBreakAddress s' = e0 - s0 /\
       GetSectorCount s' = (e0 - s0 + 1) + (e1 - s1 + 1))
    end.
Proof.
  intros s log layer Hio Hn Htp fd log1 log2 s0 e0.
  apply Z.eqb_neq in Hn.
  destruct (io_dvd_read_struct os log1 fd DVD_STRUCT_PHYSICAL 1)
    as [layer'|] eqn:Hio1.
  - intros s1 e1. unfold ReadDVDInfo.
    rewrite Hio, Hn, Htp. cbn [Z.eqb]. cbv beta zeta.
    fold fd log1. rewrite Hio1.
    assert (Hlb : u32_sub (end_sector (layer 0)) (start_sector (layer 0))
                  = u32 (e0 - s0)) by reflexivity.
    assert (Hsc : u32_add
                    (u32_sub
                       (u32_add
                          (u32_add
                             (u32_sub (end_sector (layer 0))
                                      (start_sector (layer 0))) 1)
                          (end_sector (layer' 1)))
                       (start_sector (layer' 1))) 1
                  = u32 ((e0 - s0 + 1) + (e1 - s1 + 1))).
    { subst s0 e0 s1 e1. u32_norm. f_equal. lia. }
    repeat split; try exact Hsc.
    + cbn. rewrite Hlb. apply u32_small. lia.
    + cbn. rewrite Hsc. apply u32_small. lia.
  - split.
    + unfold ReadDVDInfo. rewrite Hio, Hn, Htp. cbn [Z.eqb]. cbv beta zeta.
      fold fd log1. rewrite Hio1. reflexivity.
    + intros fuel error s_pre log_pre Hfd Hs Hlog.
      unfold Reopen. fold open_flags.
      fold (log_before_open s_pre log_pre).
      fold (opened_fd os s_pre log_pre).
      fold (log_after_open s_pre log_pre).
      rewrite Hs, Hlog.
      assert (Hdev : (m_device s =? -1) = false).
      { rewrite <- Hs. cbn. apply Z.eqb_neq. exact Hfd. }
      rewrite Hdev.
      unfold ReadDVDInfo. rewrite Hio, Hn, Htp. cbn [Z.eqb]. cbv beta zeta.
      fold fd log1. rewrite Hio1. fold log2.
      destruct (ReadCDInfo os fuel s log2) as [[[cd s'] log']|]; reflexivity.
Qed.

(** C1.  A DVD probe whose layer-0 descriptor reports a further layer on an
    opposite track path succeeds and sets the media type to 2, the layer
    break to [L0 - s0] and the sector count to
    [(L0 - s0 + 1) + (e1 - (~L0 & 0xFFFFFF) + 1)], the complement being taken
    on 32 bits and masked to 24. *)
Theorem ReadDVDInfo_opposite :
  forall (s : IOCtlSrc) (log : trace) (layer : Z -> dvd_layer),
    io_dvd_read_struct os log (m_device s) DVD_STRUCT_PHYSICAL 0 = Some layer ->
    nlayers (layer 0) <> 0 ->
    track_path (layer 0) <> 0 ->
    let s0 := start_sector (layer 0) in
    let e1 := end_sector (layer 0) in
    let L0 := end_sector_l0 (layer 0) in
    let l1_start := Z.land (u32_not L0) 16777215 in
    let '(ok, s', log') := ReadDVDInfo os s log in
    ok = true /\
    log' = log ++ [DVD_READ_STRUCT (m_device s) DVD_STRUCT_PHYSICAL 0] /\
    GetMediaType s' = 2 /\
    GetLayerBreakAddress s' = u32 (L0 - s0) /\
    GetSectorCount s' = u32 ((L0 - s0 + 1) + (e1 - l1_start + 1)) /\
    (0 <= L0 - s0 -> 0 <= e1 - l1_start ->
     (L0 - s0 + 1) + (e1 - l1_start + 1) < 2 ^ 32 ->
     GetLayerBreakAddress s' = L0 - s0 /\
     GetSectorCount s' = (L0 - s0 + 1) + (e1 - l1_start + 1)) /\
    (0 <= L0 < 2 ^ 32 -> l1_start = 16777215 - L0 mod 2 ^ 24).
Proof.
  intros s log layer Hio Hn Htp s0 e1 L0 l1_start.
  apply Z.eqb_neq in Hn, Htp.
  unfold ReadDVDInfo. rewrite Hio, Hn, Htp. cbv beta zeta.
  assert (Hlb : u32_sub (end_sector_l0 (layer 0)) (start_sector (layer 0))
                = u32 (L0 - s0)) by reflexivity.
  assert (Hsc : u32_add
                  (u32_sub
                     (u32_add
                        (u32_add
                           (u32_sub (end_sector_l0 (layer 0))
                                    (start_sector (layer 0))) 1)
                        (end_sector (layer 0)))
                     (Z.land (u32_not (end_sector_l0 (layer 0))) 16777215)) 1
                = u32 ((L0 - s0 + 1) + (e1 - l1_start + 1))).
  { subst s0 e1 L0 l1_start. u32_norm. f_equal. lia. }
  repeat split; try exact Hsc.
  - cbn. rewrite Hlb. apply u32_small.
    pose proof (Z.land_nonneg (u32_not L0) 16777215). lia.
  - cbn. rewrite Hsc. apply u32_small.
    pose proof (Z.land_nonneg (u32_not L0) 16777215). lia.
  - apply complement_24.
Qed.

End DVDProbe.

(** Decides a closed comparison or equation by evaluation. *)
Ltac by_eval :=
  vm_compute;
  first [ reflexivity | discriminate
        | split; first [ reflexivity | discriminate ] ].

(** The single-layer formula on a DVD-5: 2298496 sectors. *)
Lemma ReadDVDInfo_single_layer_witness :
  let '(ok, s', _) := ReadDVDInfo dvd5_drive opened [] in
  ok = true /\ GetMediaType s' = 0 /\ GetLayerBreakAddress s' = 0 /\
  GetSectorCount s' = 2298496.
Proof.
  pose proof (ReadDVDInfo_single_layer dvd5_drive opened []
                (layers dvd5_layer no_layer) eq_refl eq_refl) as H.
  cbv zeta in H.
  destruct (ReadDVDInfo dvd5_drive opened []) as [[ok s'] log'].
  destruct H as (Hok & _ & Hmt & Hlb & _ & Hexact).
  specialize (Hexact ltac:(by_eval)).
  repeat split; assumption.
Defined.

(** The parallel-track formula on a disc with layers of 2086912 and 1803393
    sectors; on a drive that cannot describe layer 1 the probe fails and
    [Reopen] turns to the CD probe. *)
Lemma ReadDVDInfo_parallel_witness :
  (let '(ok, s', _) := ReadDVDInfo ptp_drive opened [] in
   ok = true /\ GetMediaType s' = 1 /\ GetLayerBreakAddress s' = 2086911 /\
   GetSectorCount s' = 3890305) /\
  ReadDVDInfo ptp_drive_l1_fails opened [Open "/dev/sr0" 2048]
  = (false, opened,
     [Open "/dev/sr0" 2048; DVD_READ_STRUCT 3 0 0; DVD_READ_STRUCT 3 0 1]) /\
  Reopen ptp_drive_l1_fails 0 None fresh []
  = match ReadCDInfo ptp_drive_l1_fails 0 opened
            [Open "/dev/sr0" 2048; DVD_READ_STRUCT 3 0 0;
             DVD_READ_STRUCT 3 0 1] with
    | None => None
    | Some (_, s', log') => Some (true, None, s', log')
    end.
Proof.
  split.
  - pose proof (ReadDVDInfo_parallel ptp_drive opened []
                  (layers ptp_layer0 no_layer) eq_refl
                  ltac:(by_eval) eq_refl) as H.
    cbn [ptp_drive drive io_dvd_read_struct Z.eqb] in H. cbv zeta in H.
    destruct (ReadDVDInfo ptp_drive opened []) as [[ok s'] log'].
    destruct H as (Hok & _ & Hmt & _ & _ & Hexact).
    specialize (Hexact ltac:(by_eval) ltac:(by_eval) ltac:(by_eval)).
    destruct Hexact as [Hlb Hsc].
    repeat split; assumption.
  - pose proof (ReadDVDInfo_parallel ptp_drive_l1_fails opened
                  [Open "/dev/sr0" 2048]
                  (layers ptp_layer0 no_layer) eq_refl
                  ltac:(by_eval) eq_refl) as H.
    cbn [ptp_drive_l1_fails drive io_dvd_read_struct Z.eqb] in H.
    cbv zeta in H. destruct H as [Hprobe Hreopen].
    split; [exact Hprobe|].
    exact (Hreopen 0%nat None fresh [] ltac:(by_eval) eq_refl eq_refl).
Defined.

(** The opposite-track formula on a disc whose layers hold 1966080 sectors
    each: layer 0 ends at 0x20FFFF, so layer 1 starts at 0xDF0000; the count
    is not the extent from the start sector to the end sector. *)
Lemma ReadDVDInfo_opposite_witness :
  let '(ok, s', _) := ReadDVDInfo otp_drive opened [] in
  ok = true /\ GetMediaType s' = 2 /\ GetLayerBreakAddress s' = 1966079 /\
  GetSectorCount s' = 3932160 /\
  Z.land (u32_not 2162687) 16777215 = 14614528 /\
  GetSectorCount s' <> 16580607 - 196608 + 1.
Proof.
  pose proof (ReadDVDInfo_opposite otp_drive opened []
                (layers otp_layer0 no_layer) eq_refl
                ltac:(by_eval) ltac:(by_eval)) as H.
  cbv zeta in H.
  destruct (ReadDVDInfo otp_drive opened []) as [[ok s'] log'].
  destruct H as (Hok & _ & Hmt & _ & _ & Hexact & Hcompl).
  specialize (Hexact ltac:(by_eval) ltac:(by_eval) ltac:(by_eval)).
  specialize (Hcompl ltac:(by_eval)).
  destruct Hexact as [Hlb Hsc].
  split; [exact Hok|]. split; [exact Hmt|]. split; [exact Hlb|].
  split; [exact Hsc|]. split; [exact Hcompl|].
  rewrite Hsc. by_eval.
Defined.

(** ** The CD-TOC probe *)

Lemma zrange_S : forall n k, zrange n (S k) = n :: zrange (n + 1) k.
Proof.
  intros n k. unfold zrange. cbn [seq map]. f_equal.
  - lia.
  - rewrite <- seq_shift, map_map. apply map_ext. intro i. lia.
Qed.

Lemma entry_calls_S :
  forall fd n k,
    entry_calls fd n (S k)
    = CDROMREADTOCENTRY fd n CDROM_LBA :: entry_calls fd (n + 1) k.
Proof. intros. unfold entry_calls. rewrite zrange_S. reflexivity. Qed.

Lemma zrange_In : forall k n t, In t (zrange n k) -> n <= t < n + Z.of_nat k.
Proof.
  intros k n t H. unfold zrange in H. apply in_map_iff in H.
  destruct H as (i & <- & Hi). apply in_seq in Hi. lia.
Qed.

Lemma u8_incr_small : forall n, 0 <= n < 255 -> u8_incr n = n + 1.
Proof. intros n H. unfold u8_incr, u8. apply Z.mod_small. lia. Qed.

Lemma u8_incr_range : forall n, 0 <= u8_incr n <= 255.
Proof.
  intro n. unfold u8_incr, u8.
  pose proof (Z.mod_pos_bound (n + 1) (2 ^ 8) ltac:(lia)). lia.
Qed.

Section CDProbe.

Variable os : OS.

(** The answer to track [t] does not depend on how the calls before it are
    split between the trace and the loop. *)
Lemma track_reply_shift :
  forall fd log n t, n + 1 <= t ->
    track_reply os fd (log ++ [CDROMREADTOCENTRY fd n CDROM_LBA]) (n + 1) t
    = track_reply os fd log n t.
Proof.
  intros fd log n t Ht. unfold track_reply.
  replace (Z.to_nat (t - n)) with (S (Z.to_nat (t - (n + 1)))) by lia.
  rewrite entry_calls_S, <- app_assoc. reflexivity.
Qed.

Lemma toc_of_S :
  forall fd log n k,
    toc_of os fd log n (S k)
    = match io_read_toc_entry os log fd n CDROM_LBA with
      | Some r => [{| lba := u32 (r_lba r); track := n;
                      adr := r_adr r; control := r_ctrl r |}]
      | None => []
      end
      ++ toc_of os fd (log ++ [CDROMREADTOCENTRY fd n CDROM_LBA]) (n + 1) k.
Proof.
  intros fd log n k. unfold toc_of. rewrite zrange_S. cbn [flat_map].
  f_equal.
  - unfold track_reply. rewrite Z.sub_diag. cbn. rewrite app_nil_r.
    reflexivity.
  - rewrite !flat_map_concat_map. f_equal. apply map_ext_in.
    intros t Ht. apply zrange_In in Ht.
    rewrite track_reply_shift by lia. reflexivity.
Qed.

Lemma set_m_toc_app_nil : forall s, set_m_toc (m_toc s ++ []) s = s.
Proof. intros [f d sc lb mt toc]. unfold set_m_toc. cbn. rewrite app_nil_r. reflexivity. Qed.

(** With a last track number below 255 the loop reads the tracks
    [n .. trk1] once each, in ascending order and in LBA mode, and appends
    an entry for every track the driver could read. *)
Lemma toc_loop_in_range :
  forall (k fuel : nat) (trk1 n : Z) (entry : cdrom_tocentry) (s : IOCtlSrc)
         (log : trace),
    0 <= n -> trk1 < 255 ->
    Z.of_nat k = Z.max 0 (trk1 - n + 1) ->
    (k <= fuel)%nat ->
    cdte_format entry = CDROM_LBA ->
    exists entry',
      toc_loop os fuel trk1 n entry s log
      = Some (entry',
              set_m_toc (m_toc s ++ toc_of os (m_device s) log n k) s,
              log ++ entry_calls (m_device s) n k)
      /\ cdte_format entry' = CDROM_LBA.
Proof.
  induction k as [|k IH]; intros fuel trk1 n entry s log Hn Htrk Hk Hfuel Hfmt.
  - assert (Hcmp : (n <=? trk1) = false) by (apply Z.leb_gt; lia).
    exists entry. split; [|exact Hfmt].
    destruct fuel; cbn [toc_loop]; rewrite Hcmp;
      unfold toc_of, entry_calls; cbn [zrange seq map flat_map];
      rewrite set_m_toc_app_nil, app_nil_r; reflexivity.
  - assert (Hcmp : (n <=? trk1) = true) by (apply Z.leb_le; lia).
    destruct fuel as [|fuel]; [lia|].
    cbn [toc_loop]. rewrite Hcmp.
    cbn [set_cdte_track cdte_track cdte_format]. rewrite Hfmt.
    rewrite u8_incr_small by lia.
    rewrite toc_of_S, entry_calls_S.
    destruct (io_read_toc_entry os log (m_device s) n CDROM_LBA) as [r|].
    + match goal with
      | |- context [toc_loop os fuel trk1 (n + 1) ?e ?s1 ?l1] =>
        destruct (IH fuel trk1 (n + 1) e s1 l1) as (entry' & Heq & Hfmt');
          [lia | lia | lia | lia | exact Hfmt |]
      end.
      exists entry'. split; [|exact Hfmt'].
      rewrite Heq. cbn [set_m_toc m_toc m_device m_filename m_sectors
                                  m_layer_break m_media_type
                                  fill_tocentry set_cdte_track cdte_track
                                  cdte_adr cdte_ctrl cdte_addr_lba].
      rewrite <- !app_assoc. reflexivity.
    + match goal with
      | |- context [toc_loop os fuel trk1 (n + 1) ?e ?s1 ?l1] =>
        destruct (IH fuel trk1 (n + 1) e s1 l1) as (entry' & Heq & Hfmt');
          [lia | lia | lia | lia | exact Hfmt |]
      end.
      exists entry'. split; [|exact Hfmt'].
      rewrite Heq. cbn [app]. rewrite <- !app_assoc. reflexivity.
Qed.

(** With 255 as the last track number the loop condition [n <= 255] holds
    for every [u8] counter: no amount of fuel lets the loop end. *)
Lemma toc_loop_255 :
  forall (fuel : nat) (n : Z) (entry : cdrom_tocentry) (s : IOCtlSrc)
         (log : trace),
    0 <= n <= 255 -> toc_loop os fuel 255 n entry s log = None.
Proof.
  induction fuel as [|fuel IH]; intros n entry s log Hn;
    cbn [toc_loop];
    replace (n <=? 255) with true by (symmetry; apply Z.leb_le; lia).
  - reflexivity.
  - pose proof (u8_incr_range n) as Hr.
    destruct (io_read_toc_entry os log (m_device s)
                (cdte_track (set_cdte_track n entry))
                (cdte_format (set_cdte_track n entry))); apply IH; exact Hr.
Qed.

(** A probe whose header read fails returns false and changes nothing. *)
Lemma ReadCDInfo_no_header :
  forall (fuel : nat) (s : IOCtlSrc) (log : trace),
    io_read_toc_hdr os log (m_device s) = None ->
    ReadCDInfo os fuel s log
    = Some (false, s, log ++ [CDROMREADTOCHDR (m_device s)]).
Proof. intros fuel s log H. unfold ReadCDInfo. rewrite H. reflexivity. Qed.

(** The probe on a disc whose last track number is below 255: the stored
    TOC is replaced by the entries of the readable tracks of [first..last],
    then the lead-out is read; the probe fails when that read fails, and
    otherwise sets the sector count to the lead-out LBA and the media type
    to -1. *)
Lemma ReadCDInfo_in_range :
  forall (fuel : nat) (s : IOCtlSrc) (log : trace) (h : cdrom_tochdr),
    io_read_toc_hdr os log (m_device s) = Some h ->
    enumerable h ->
    let fd := m_device s in
    let k := Z.to_nat (cdth_trk1 h - cdth_trk0 h + 1) in
    (k <= fuel)%nat ->
    let log1 := log ++ [CDROMREADTOCHDR fd] in
    let log2 := log1 ++ entry_calls fd (cdth_trk0 h) k in
    let log3 := log2 ++ [CDROMREADTOCENTRY fd CDROM_LEADOUT CDROM_LBA] in
    let s1 := set_m_toc (toc_of os fd log1 (cdth_trk0 h) k) s in
    ReadCDInfo os fuel s log =
    match io_read_toc_entry os log2 fd CDROM_LEADOUT CDROM_LBA with
    | None => Some (false, s1, log3)
    | Some r =>
      Some (true, set_m_media_type (-1) (set_m_sectors (u32 (r_lba r)) s1),
            log3)
    end.
Proof.
  intros fuel s log h Hhdr [H0 H1] fd k Hfuel log1 log2 log3 s1.
  unfold ReadCDInfo. rewrite Hhdr. fold fd log1.
  destruct (toc_loop_in_range k fuel (cdth_trk1 h) (cdth_trk0 h)
              tocentry_init (set_m_toc [] s) log1)
    as (entry' & Heq & Hfmt); try lia; try reflexivity.
  rewrite Heq.
  cbn [set_m_toc m_toc m_device m_filename m_sectors m_layer_break
                 m_media_type app set_cdte_track cdte_track cdte_format].
  rewrite Hfmt. fold fd log2 log3.
  destruct (io_read_toc_entry os log2 fd CDROM_LEADOUT CDROM_LBA);
    reflexivity.
Qed.

(** The number of tracks of an enumerable header is at most 255. *)
Lemma enumerable_tracks :
  forall h, enumerable h ->
    (Z.to_nat (cdth_trk1 h - cdth_trk0 h + 1) <= 255)%nat.
Proof. intros h [H0 H1]. lia. Qed.

(** The probe returns when the header is enumerable (or cannot be read). *)
Lemma ReadCDInfo_returns :
  forall (fuel : nat) (s : IOCtlSrc) (log : trace),
    enumerable_reply (io_read_toc_hdr os log (m_device s)) ->
    (255 <= fuel)%nat ->
    exists ok s' log', ReadCDInfo os fuel s log = Some (ok, s', log').
Proof.
  intros fuel s log Hen Hfuel.
  destruct (io_read_toc_hdr os log (m_device s)) as [h|] eqn:Hhdr.
  - pose proof (enumerable_tracks h Hen) as Hk.
    rewrite (ReadCDInfo_in_range fuel s log h Hhdr Hen) by lia.
    destruct (io_read_toc_entry os _ _ _ _); eauto.
  - rewrite ReadCDInfo_no_header by exact Hhdr. eauto.
Qed.

(** Every trace the probe leaves starts with the header read. *)
Lemma ReadCDInfo_trace :
  forall (fuel : nat) (s : IOCtlSrc) (log : trace) ok s' log',
    ReadCDInfo os fuel s log = Some (ok, s', log') ->
    exists rest, log' = log ++ CDROMREADTOCHDR (m_device s) :: rest.
Proof.
  intros fuel s log ok s' log' H. unfold ReadCDInfo in H.
  destruct (io_read_toc_hdr os log (m_device s)) as [h|].
  - destruct (toc_loop os fuel _ _ _ _ _) as [[[e s1] l1]|] eqn:Hloop;
      [|discriminate].
    assert (Hl1 : exists rest,
               l1 = (log ++ [CDROMREADTOCHDR (m_device s)]) ++ rest).
    { clear H. revert Hloop.
      generalize (set_m_toc [] s) as s0, tocentry_init as e0,
                 (cdth_trk0 h) as n,
                 (log ++ [CDROMREADTOCHDR (m_device s)]) as l0.
      induction fuel as [|fuel IH]; intros s0 e0 n l0 Hloop;
        cbn [toc_loop] in Hloop; destruct (n <=? cdth_trk1 h);
        try discriminate;
        try (injection Hloop as _ _ <-; exists []; symmetry;
             apply app_nil_r).
      destruct (io_read_toc_entry os l0 _ _ _);
        apply IH in Hloop; destruct Hloop as [rest ->];
        rewrite <- app_assoc; eauto. }
    destruct Hl1 as [rest ->].
    destruct (io_read_toc_entry os _ _ _ _);
      injection H as _ _ <-; rewrite <- !app_assoc; cbn [app]; eauto.
  - injection H as _ _ <-. exists []. reflexivity.
Qed.

(** The probe never touches the handle. *)
Lemma toc_loop_device :
  forall (fuel : nat) (trk1 n : Z) (entry : cdrom_tocentry) (s : IOCtlSrc)
         (log : trace) entry' s' log',
    toc_loop os fuel trk1 n entry s log = Some (entry', s', log') ->
    m_device s' = m_device s.
Proof.
  induction fuel as [|fuel IH]; intros trk1 n entry s log entry' s' log' H;
    cbn [toc_loop] in H; destruct (n <=? trk1); try discriminate;
    try (injection H as _ <- _; reflexivity).
  destruct (io_read_toc_entry os log _ _ _); apply IH in H; exact H.
Qed.

Lemma ReadCDInfo_device :
  forall (fuel : nat) (s : IOCtlSrc) (log : trace) ok s' log',
    ReadCDInfo os fuel s log = Some (ok, s', log') ->
    m_device s' = m_device s.
Proof.
  intros fuel s log ok s' log' H. unfold ReadCDInfo in H.
  destruct (io_read_toc_hdr os log (m_device s)) as [h|].
  - destruct (toc_loop os fuel _ _ _ _ _) as [[[e s1] l1]|] eqn:Hloop;
      [|discriminate].
    apply toc_loop_device in Hloop.
    destruct (io_read_toc_entry os _ _ _ _);
      injection H as _ <- _; exact Hloop.
  - injection H as _ <- _. reflexivity.
Qed.

(** C4 (where the code departs from it).  When the header read succeeds
    and reports 255 as the last track number, the track loop never ends: the
    probe does not reach the lead-out read and returns for no amount of
    fuel.  For every smaller last track number the probe behaves as C4
    says, see [ReadCDInfo_in_range]. *)
Theorem ReadCDInfo_last_track_255 :
  forall (fuel : nat) (s : IOCtlSrc) (log : trace) (h : cdrom_tochdr),
    io_read_toc_hdr os log (m_device s) = Some h ->
    0 <= cdth_trk0 h <= 255 ->
    cdth_trk1 h = 255 ->
    ReadCDInfo os fuel s log = None.
Proof.
  intros fuel s log h Hhdr H0 H1. unfold ReadCDInfo.
  rewrite Hhdr, H1, toc_loop_255 by exact H0. reflexivity.
Qed.

(** C5 (amended).  The stored TOC is cleared only once the header read has
    succeeded: a probe whose header read fails returns false and leaves the
    session, its TOC included, as it was; a probe whose header read succeeds
    goes on as it would from an empty TOC. *)
Theorem ReadCDInfo_header_failure_keeps_toc :
  forall (fuel : nat) (s : IOCtlSrc) (log : trace),
    match io_read_toc_hdr os log (m_device s) with
    | None =>
      match ReadCDInfo os fuel s log with
      | Some (ok, s', log') =>
        ok = false /\ s' = s /\ ReadTOC s' = ReadTOC s /\
        log' = log ++ [CDROMREADTOCHDR (m_device s)]
      | None => False
      end
    | Some _ =>
      ReadCDInfo os fuel s log = ReadCDInfo os fuel (set_m_toc [] s) log
    end.
Proof.
  intros fuel s log.
  destruct (io_read_toc_hdr os log (m_device s)) as [h|] eqn:Hhdr.
  - unfold ReadCDInfo. cbn [set_m_toc m_device]. rewrite Hhdr. reflexivity.
  - rewrite (ReadCDInfo_no_header fuel s log Hhdr). repeat split.
Qed.

End CDProbe.

(** On a drive that reports tracks 1 to 255 the probe does not return. *)
Lemma ReadCDInfo_last_track_255_witness :
  ReadCDInfo cd_drive_255 1000 opened [] = None.
Proof.
  apply (ReadCDInfo_last_track_255 cd_drive_255 1000 opened []
           {| cdth_trk0 := 1; cdth_trk1 := 255 |});
    [reflexivity | by_eval | reflexivity].
Defined.

(** A session holding the TOC of an earlier disc, probed on a drive whose
    header read fails: the probe returns false and the TOC is still there,
    not empty. *)
Lemma ReadCDInfo_clears_toc_first_counterexample :
  io_read_toc_hdr empty_drive [] (m_device stale) = None /\
  ReadTOC stale <> [] /\
  match ReadCDInfo empty_drive 0 stale [] with
  | Some (ok, s', _) =>
    ok = false /\ ReadTOC s' = ReadTOC stale /\ ReadTOC s' <> []
  | None => False
  end.
Proof. cbn. repeat split; discriminate. Qed.

(** ** The session: [Reopen] and [DiscReady] *)

Section Session.

Variable os : OS.

(** The DVD probe keeps the handle, starts with the layer-0 query and
    issues no call of the CD probe. *)
Lemma ReadDVDInfo_trace :
  forall (s : IOCtlSrc) (log : trace) ok s' log',
    ReadDVDInfo os s log = (ok, s', log') ->
    m_device s' = m_device s /\
    exists rest,
      log' = log ++ DVD_READ_STRUCT (m_device s) DVD_STRUCT_PHYSICAL 0 :: rest
      /\ existsb cd_probe_call rest = false.
Proof.
  intros s log ok s' log' H. unfold ReadDVDInfo in H.
  destruct (io_dvd_read_struct os log _ _ 0) as [layer|].
  - destruct (nlayers (layer 0) =? 0).
    + injection H as _ <- <-. split; [reflexivity|]. exists []. auto.
    + destruct (track_path (layer 0) =? 0).
      * destruct (io_dvd_read_struct os _ _ _ 1);
          injection H as _ <- <-; (split; [reflexivity|]);
          rewrite <- app_assoc; eexists; split; reflexivity.
      * injection H as _ <- <-. split; [reflexivity|]. exists []. auto.
  - injection H as _ <- <-. split; [reflexivity|]. exists []. auto.
Qed.

(** [Reopen] when [open] fails. *)
Lemma Reopen_open_fails :
  forall (fuel : nat) (error : option Error) (s : IOCtlSrc) (log : trace),
    opened_fd os s log = -1 ->
    Reopen os fuel error s log
    = Some (false, SetErrno error (sys_errno os (log_after_open s log)),
            set_m_device (-1) s, log_after_open s log).
Proof.
  intros fuel error s log Hfd. unfold Reopen.
  fold open_flags. fold (log_before_open s log).
  fold (opened_fd os s log). fold (log_after_open s log).
  rewrite Hfd. reflexivity.
Qed.

(** [Reopen] once [open] has succeeded. *)
Lemma Reopen_open_succeeds :
  forall (fuel : nat) (error : option Error) (s : IOCtlSrc) (log : trace),
    opened_fd os s log <> -1 ->
    Reopen os fuel error s log
    = let '(dvd, s2, log2) :=
        ReadDVDInfo os (set_m_device (opened_fd os s log) s)
                    (log_after_open s log) in
      if dvd then Some (true, error, s2, log2)
      else match ReadCDInfo os fuel s2 log2 with
           | None => None
           | Some (_, s3, log3) => Some (true, error, s3, log3)
           end.
Proof.
  intros fuel error s log Hfd. unfold Reopen.
  fold open_flags. fold (log_before_open s log).
  fold (opened_fd os s log). fold (log_after_open s log).
  cbn [set_m_device m_device].
  apply Z.eqb_neq in Hfd. rewrite Hfd.
  destruct (ReadDVDInfo os _ _) as [[dvd s2] log2].
  destruct dvd; [reflexivity|].
  destruct (ReadCDInfo os fuel s2 log2) as [[[cd s3] log3]|]; reflexivity.
Qed.

(** [Reopen] returns when its CD probe is given an enumerable header. *)
Lemma Reopen_returns :
  forall (fuel : nat) (error : option Error) (s : IOCtlSrc) (log : trace),
    reopen_enumerable os s log ->
    (255 <= fuel)%nat ->
    exists ok error' s' log',
      Reopen os fuel error s log = Some (ok, error', s', log').
Proof.
  intros fuel error s log Hen Hfuel. unfold reopen_enumerable in Hen.
  destruct (Z.eq_dec (opened_fd os s log) (-1)) as [Hfd|Hfd].
  - rewrite Reopen_open_fails by exact Hfd. eauto.
  - rewrite Reopen_open_succeeds by exact Hfd.
    destruct (ReadDVDInfo os _ _) as [[dvd s2] log2].
    destruct dvd; [eauto|].
    destruct Hen as [Hen|[Hen|Hen]]; [contradiction | discriminate |].
    destruct (ReadCDInfo_returns os fuel s2 log2 Hen Hfuel)
      as (cd & s3 & log3 & ->).
    eauto.
Qed.

(** C3 (where the code departs from it).  When [open] fails, [Reopen]
    reports the OS error code through the error sink, returns false and
    leaves the session without a handle.  When [open] succeeds, [Reopen]
    runs the DVD probe on the new handle, runs the CD probe exactly when
    the DVD probe has failed, on the session and trace the DVD probe left,
    and its result is true with the session and trace of the last probe
    run.  But it returns only if the CD probe does: when the DVD probe fails
    and the TOC header reports 255 as the last track number, [Reopen]
    returns for no amount of fuel. *)
Theorem Reopen_last_track_255 :
  forall (fuel : nat) (error : option Error) (s : IOCtlSrc) (log : trace),
    let fd := opened_fd os s log in
    let log1 := log_after_open s log in
    (fd = -1 ->
     Reopen os fuel error s log
     = Some (false, SetErrno error (sys_errno os log1), set_m_device (-1) s,
             log1) /\
     forall e, error = Some e ->
               SetErrno error (sys_errno os log1)
               = Some (ErrorErrno (sys_errno os log1)))
    /\
    (fd <> -1 ->
     let '(dvd, s2, log2) := ReadDVDInfo os (set_m_device fd s) log1 in
     Reopen os fuel error s log
     = (if dvd then Some (true, error, s2, log2)
        else match ReadCDInfo os fuel s2 log2 with
             | Some (_, s3, log3) => Some (true, error, s3, log3)
             | None => None
             end) /\
     (dvd = false ->
      forall h,
        io_read_toc_hdr os log2 fd = Some h ->
        0 <= cdth_trk0 h <= 255 ->
        cdth_trk1 h = 255 ->
        Reopen os fuel error s log = None)).
Proof.
  intros fuel error s log fd log1. split.
  - intro Hfd. split.
    + apply Reopen_open_fails. exact Hfd.
    + intros e ->. reflexivity.
  - intro Hfd.
    pose proof (Reopen_open_succeeds fuel error s log Hfd) as Heq.
    fold fd log1 in Heq.
    destruct (ReadDVDInfo os (set_m_device fd s) log1) as [[dvd s2] log2]
      eqn:Hdvd.
    split.
    + rewrite Heq. destruct dvd; [reflexivity|].
      destruct (ReadCDInfo os fuel s2 log2) as [[[cd s3] log3]|];
        reflexivity.
    + intros -> h Hhdr H0 H1. rewrite Heq.
      destruct (ReadDVDInfo_trace _ _ _ _ _ Hdvd) as [Hdev _].
      cbn [set_m_device m_device] in Hdev.
      unfold ReadCDInfo. rewrite Hdev, Hhdr, H1.
      rewrite toc_loop_255 by exact H0. reflexivity.
Qed.

(** [DiscReady] on a session without a handle. *)
Lemma DiscReady_no_handle :
  forall (fuel : nat) (s : IOCtlSrc) (log : trace),
    m_device s = -1 -> DiscReady os fuel s log = Some (false, s, log).
Proof. intros fuel s log H. unfold DiscReady. rewrite H. reflexivity. Qed.

(** C7.  On a session with an open handle: when the drive status is not
    "disc present", [DiscReady] resets sector count, layer break and media
    type to 0 (and returns false); whenever [DiscReady] returns, it returns
    true exactly when the sector count is then nonzero; with a disc present
    it returns at once when the sector count was nonzero and runs [Reopen]
    first when it was 0, returning whenever that [Reopen] does. *)
Theorem DiscReady_status :
  forall (fuel : nat) (s : IOCtlSrc) (log : trace),
    m_device s <> -1 ->
    let fd := m_device s in
    let status := io_drive_status os log fd CDSL_CURRENT in
    let log1 := log ++ [CDROM_DRIVE_STATUS fd CDSL_CURRENT] in
    (status <> CDS_DISC_OK ->
     match DiscReady os fuel s log with
     | Some (ok, s', log') =>
       GetSectorCount s' = 0 /\ GetLayerBreakAddress s' = 0 /\
       GetMediaType s' = 0 /\ ok = false /\ log' = log1 /\
       m_device s' = fd /\ ReadTOC s' = ReadTOC s
     | None => False
     end)
    /\
    (forall ok s' log',
        DiscReady os fuel s log = Some (ok, s', log') ->
        (ok = true <-> GetSectorCount s' <> 0))
    /\
    (status = CDS_DISC_OK -> GetSectorCount s <> 0 ->
     DiscReady os fuel s log = Some (true, s, log1))
    /\
    (status = CDS_DISC_OK -> GetSectorCount s = 0 ->
     DiscReady os fuel s log
     = match Reopen os fuel None s log1 with
       | Some (_, _, s', log') => Some (to_bool (m_sectors s'), s', log')
       | None => None
       end /\
     (reopen_enumerable os s log1 -> (255 <= fuel)%nat ->
      exists ok s' log', DiscReady os fuel s log = Some (ok, s', log'))).
Proof.
  intros fuel s log Hdev fd status log1.
  assert (Hbool : forall x, to_bool x = true <-> x <> 0).
  { intro x. unfold to_bool. rewrite negb_true_iff. apply Z.eqb_neq. }
  apply Z.eqb_neq in Hdev.
  split; [|split; [|split]].
  - intro Hst. apply Z.eqb_neq in Hst.
    unfold DiscReady. rewrite Hdev. fold fd status. rewrite Hst.
    repeat split.
  - intros ok s' log' H. unfold DiscReady in H. rewrite Hdev in H.
    fold fd status log1 in H.
    destruct (status =? CDS_DISC_OK).
    + destruct (negb (to_bool (m_sectors s))).
      * destruct (Reopen os fuel None s log1) as [[[[r e] s2] log2]|];
          [|discriminate].
        injection H as <- <- _. apply Hbool.
      * injection H as <- <- _. apply Hbool.
    + injection H as <- <- _. apply Hbool.
  - intros Hst Hsc. apply Z.eqb_eq in Hst.
    unfold DiscReady. rewrite Hdev. fold fd status log1. rewrite Hst.
    apply Hbool in Hsc. unfold GetSectorCount in Hsc. rewrite Hsc.
    reflexivity.
  - intros Hst Hsc. apply Z.eqb_eq in Hst.
    assert (Heq : DiscReady os fuel s log
                  = match Reopen os fuel None s log1 with
                    | Some (_, _, s', log') =>
                      Some (to_bool (m_sectors s'), s', log')
                    | None => None
                    end).
    { unfold DiscReady. rewrite Hdev. fold fd status log1. rewrite Hst.
      unfold GetSectorCount in Hsc. rewrite Hsc. reflexivity. }
    split; [exact Heq|].
    intros Hen Hfuel. rewrite Heq.
    destruct (Reopen_returns fuel None s log1 Hen Hfuel)
      as (r & e & s' & log' & ->).
    eauto.
Qed.

(** C10.  When [Reopen] fails at the open step, the session loses its
    handle but keeps sector count, layer break, media type and TOC; a
    [DiscReady] that follows returns false without any device call and
    without resetting them. *)
Theorem Reopen_open_failure_keeps_geometry :
  forall (fuel fuel' : nat) (error : option Error) (s : IOCtlSrc)
         (log : trace),
    opened_fd os s log = -1 ->
    match Reopen os fuel error s log with
    | Some (ok, _, s', log') =>
      ok = false /\ m_device s' = -1 /\
      GetSectorCount s' = GetSectorCount s /\
      GetLayerBreakAddress s' = GetLayerBreakAddress s /\
      GetMediaType s' = GetMediaType s /\
      ReadTOC s' = ReadTOC s /\
      DiscReady os fuel' s' log' = Some (false, s', log')
    | None => False
    end.
Proof.
  intros fuel fuel' error s log Hfd.
  rewrite Reopen_open_fails by exact Hfd.
  repeat split.
Qed.

End Session.

(** A drive whose node cannot be opened reports ENOENT through the sink and
    leaves no handle; a CD in the drive is read by the CD probe after the
    DVD probe has failed; on a drive that reports tracks 1 to 255 [Reopen]
    does not return. *)
Lemma Reopen_last_track_255_witness :
  Reopen no_drive 0 (Some ErrorNone) stale []
  = Some (false, Some (ErrorErrno 2), set_m_device (-1) stale,
          [Close 3; Open "/dev/sr0" 2048]) /\
  Reopen cd_drive 3 (Some ErrorNone) fresh []
  = Some (true, Some ErrorNone,
          set_m_media_type (-1)
            (set_m_sectors 300000
               (set_m_toc
                  [{| lba := 0; track := 1; adr := 1; control := 4 |};
                   {| lba := 2000; track := 3; adr := 1; control := 4 |}]
                  opened)),
          [Open "/dev/sr0" 2048; DVD_READ_STRUCT 3 0 0; CDROMREADTOCHDR 3;
           CDROMREADTOCENTRY 3 1 1; CDROMREADTOCENTRY 3 2 1;
           CDROMREADTOCENTRY 3 3 1; CDROMREADTOCENTRY 3 170 1]) /\
  Reopen cd_drive_255 1000 (Some ErrorNone) fresh [] = None.
Proof.
  split; [|split].
  - destruct (Reopen_last_track_255 no_drive 0 (Some ErrorNone) stale [])
      as [H _].
    destruct (H eq_refl) as [Heq Herr].
    rewrite Heq, (Herr ErrorNone eq_refl). reflexivity.
  - destruct (Reopen_last_track_255 cd_drive 3 (Some ErrorNone) fresh [])
      as [_ H].
    specialize (H ltac:(by_eval)). cbv zeta in H.
    assert (E : ReadDVDInfo cd_drive
                  (set_m_device (opened_fd cd_drive fresh []) fresh)
                  (log_after_open fresh [])
                = (false, opened,
                   [Open "/dev/sr0" 2048; DVD_READ_STRUCT 3 0 0]))
      by reflexivity.
    rewrite E in H. destruct H as [Heq _]. rewrite Heq. reflexivity.
  - destruct (Reopen_last_track_255 cd_drive_255 1000 (Some ErrorNone)
                fresh []) as [_ H].
    specialize (H ltac:(by_eval)). cbv zeta in H.
    assert (E : ReadDVDInfo cd_drive_255
                  (set_m_device (opened_fd cd_drive_255 fresh []) fresh)
                  (log_after_open fresh [])
                = (false, opened,
                   [Open "/dev/sr0" 2048; DVD_READ_STRUCT 3 0 0]))
      by reflexivity.
    rewrite E in H. destruct H as [_ H].
    exact (H eq_refl {| cdth_trk0 := 1; cdth_trk1 := 255 |} eq_refl
             ltac:(by_eval) eq_refl).
Defined.

(** An empty drive resets the geometry of a session that still held that of
    an earlier disc; with a disc present and the geometry known the session
    is left alone; with a disc present and no geometry [Reopen] runs. *)
Lemma DiscReady_status_witness :
  match DiscReady empty_drive 0 stale [] with
  | Some (ok, s', _) =>
    GetSectorCount s' = 0 /\ GetLayerBreakAddress s' = 0 /\
    GetMediaType s' = 0 /\ ok = false
  | None => False
  end /\
  DiscReady cd_drive 0 stale []
  = Some (true, stale, [CDROM_DRIVE_STATUS 3 CDSL_CURRENT]) /\
  (true = true <-> GetSectorCount stale <> 0) /\
  exists ok s' log', DiscReady cd_drive 255 opened [] = Some (ok, s', log').
Proof.
  split; [|split; [|split]].
  - destruct (DiscReady_status empty_drive 0 stale [] ltac:(by_eval))
      as [H _].
    specialize (H ltac:(by_eval)).
    destruct (DiscReady empty_drive 0 stale []) as [[[ok s'] l]|]; [|exact H].
    destruct H as (H1 & H2 & H3 & H4 & _). repeat split; assumption.
  - destruct (DiscReady_status cd_drive 0 stale [] ltac:(by_eval))
      as (_ & _ & H & _).
    exact (H eq_refl ltac:(by_eval)).
  - destruct (DiscReady_status cd_drive 0 stale [] ltac:(by_eval))
      as (_ & Hiff & H & _).
    exact (Hiff true stale _ (H eq_refl ltac:(by_eval))).
  - destruct (DiscReady_status cd_drive 255 opened [] ltac:(by_eval))
      as (_ & _ & _ & H).
    destruct (H eq_refl eq_refl) as [_ Hret].
    apply Hret; [|apply Nat.le_refl].
    unfold reopen_enumerable.
    assert (E : ReadDVDInfo cd_drive
                  (set_m_device
                     (opened_fd cd_drive opened
                        ([] ++ [CDROM_DRIVE_STATUS (m_device opened)
                                                   CDSL_CURRENT]))
                     opened)
                  (log_after_open opened
                     ([] ++ [CDROM_DRIVE_STATUS (m_device opened)
                                                CDSL_CURRENT]))
                = (false, opened,
                   [CDROM_DRIVE_STATUS 3 CDSL_CURRENT; Close 3;
                    Open "/dev/sr0" 2048; DVD_READ_STRUCT 3 0 0]))
      by reflexivity.
    rewrite E. right. right. split; by_eval.
Defined.

(** After a failed [Reopen] the session reports 300000 sectors while holding
    no handle, and [DiscReady] answers false. *)
Lemma Reopen_open_failure_keeps_geometry_witness :
  match Reopen no_drive 0 None stale [] with
  | Some (ok, _, s', log') =>
    ok = false /\ m_device s' = -1 /\ GetSectorCount s' = 300000 /\
    DiscReady no_drive 0 s' log' = Some (false, s', log')
  | None => False
  end.
Proof.
  pose proof (Reopen_open_failure_keeps_geometry no_drive 0 0 None stale []
                eq_refl) as H.
  destruct (Reopen no_drive 0 None stale []) as [[[[ok e] s'] l]|];
    [|exact H].
  destruct H as (H1 & H2 & H3 & _ & _ & _ & H7).
  repeat split; assumption.
Defined.

(** ** The sector reader *)

Section SectorReader.

Variable os : OS.
Variable lba_to_msf : Z -> Z * Z * Z.

(** [ReadSectors2048] asks for [2048 * count] bytes, the product taken in
    [u32], at the offset [sector * 2048] taken in 64 bits, and returns true
    exactly when [pread] returns the number of bytes asked for.  The offset
    is the plain product for every [u32] sector, the byte count for every
    count below 2^21. *)
Lemma ReadSectors2048_spec :
  forall (s : IOCtlSrc) (sector count : Z) (buf : buffer) (log : trace),
    let fd := m_device s in
    let nbytes := u32 (2048 * count) in
    let offset := (sector * 2048) mod 2 ^ 64 in
    ReadSectors2048 os s sector count buf log
    = (fst (sys_pread os log fd buf nbytes offset) =? nbytes,
       snd (sys_pread os log fd buf nbytes offset),
       log ++ [Pread fd nbytes offset]) /\
    (0 <= sector < 2 ^ 32 -> offset = sector * 2048) /\
    (0 <= count < 2 ^ 21 -> nbytes = count * 2048).
Proof.
  intros s sector count buf log fd nbytes offset. split; [|split].
  - unfold ReadSectors2048, u32_mul, u64_mul. fold fd nbytes offset.
    destruct (sys_pread os log fd buf nbytes offset). reflexivity.
  - intro H. subst offset. apply Z.mod_small. lia.
  - intro H. subst nbytes. rewrite u32_small by lia. lia.
Qed.

Lemma raw_calls_S :
  forall fd sector n k,
    raw_calls lba_to_msf fd sector n (S k)
    = raw_call lba_to_msf fd sector n
      :: raw_calls lba_to_msf fd sector (n + 1) k.
Proof. intros. unfold raw_calls. rewrite zrange_S. reflexivity. Qed.

Lemma raw_reply_first :
  forall fd sector log n,
    raw_reply os lba_to_msf fd sector log n n
    = io_read_raw os log fd (lba_to_msf (u32_add sector n)).
Proof.
  intros. unfold raw_reply. rewrite Z.sub_diag. cbn. rewrite app_nil_r.
  reflexivity.
Qed.

Lemma raw_reply_shift :
  forall fd sector log n t, n + 1 <= t ->
    raw_reply os lba_to_msf fd sector
              (log ++ [raw_call lba_to_msf fd sector n]) (n + 1) t
    = raw_reply os lba_to_msf fd sector log n t.
Proof.
  intros fd sector log n t Ht. unfold raw_reply.
  replace (Z.to_nat (t - n)) with (S (Z.to_nat (t - (n + 1)))) by lia.
  rewrite raw_calls_S, <- app_assoc. reflexivity.
Qed.

Lemma memcpy_inside :
  forall dst off src n i, 0 <= i < n -> memcpy dst off src n (off + i) = src i.
Proof.
  intros dst off src n i H. unfold memcpy.
  replace (off <=? off + i) with true by (symmetry; apply Z.leb_le; lia).
  replace (off + i <? off + n) with true by (symmetry; apply Z.ltb_lt; lia).
  cbn. f_equal. lia.
Qed.

Lemma memcpy_outside :
  forall dst off src n j, j < off \/ off + n <= j ->
    memcpy dst off src n j = dst j.
Proof.
  intros dst off src n j H. unfold memcpy.
  destruct (Z.leb_spec off j); destruct (Z.ltb_spec j (off + n));
    cbn; try reflexivity; lia.
Qed.

(** The loop of [ReadSectors2352], started at counter [n] with the output
    pointer [n] frames into the buffer. *)
Lemma raw_loop_spec :
  forall (r : nat) (fd sector n : Z) (buf : buffer) (log : trace)
         ok buf' log',
    raw_loop os lba_to_msf r fd sector n buf (n * CD_FRAMESIZE_RAW) log
    = (ok, buf', log') ->
    let reply := raw_reply os lba_to_msf fd sector log n in
    ((forall t, n <= t < n + Z.of_nat r -> reply t <> None) ->
     ok = true /\ log' = log ++ raw_calls lba_to_msf fd sector n r)
    /\
    (forall k, n <= k < n + Z.of_nat r ->
               (forall t, n <= t < k -> reply t <> None) ->
               reply k = None ->
               ok = false /\
               log' = log ++ raw_calls lba_to_msf fd sector n
                                       (S (Z.to_nat (k - n))) /\
               forall j, k * CD_FRAMESIZE_RAW <= j -> buf' j = buf j)
    /\
    (forall t frame i,
        n <= t < n + Z.of_nat r ->
        (forall u, n <= u < t -> reply u <> None) ->
        reply t = Some frame ->
        0 <= i < CD_FRAMESIZE_RAW ->
        buf' (t * CD_FRAMESIZE_RAW + i) = frame i)
    /\
    (forall j, j < n * CD_FRAMESIZE_RAW -> buf' j = buf j).
Proof.
  induction r as [|r IH]; intros fd sector n buf log ok buf' log' H reply.
  - cbn [raw_loop] in H. injection H as <- <- <-.
    repeat split; try (intros; lia).
    unfold raw_calls. cbn. symmetry. apply app_nil_r.
  - cbn [raw_loop] in H.
    assert (Hfirst : reply n
                     = io_read_raw os log fd (lba_to_msf (u32_add sector n)))
      by apply raw_reply_first.
    assert (Hcall : forall m sec f,
               lba_to_msf (u32_add sector n) = (m, sec, f) ->
               raw_call lba_to_msf fd sector n = CDROMREADRAW fd m sec f).
    { intros m sec f E. unfold raw_call. rewrite E. reflexivity. }
    destruct (lba_to_msf (u32_add sector n)) as [[m sec] f] eqn:Emsf.
    specialize (Hcall m sec f eq_refl). rewrite <- Hcall in H.
    destruct (io_read_raw os log fd (m, sec, f)) as [data|] eqn:Eio.
    + (* the frame is read and copied; the loop goes on *)
      replace (n * CD_FRAMESIZE_RAW + CD_FRAMESIZE_RAW)
        with ((n + 1) * CD_FRAMESIZE_RAW) in H by lia.
      apply IH in H. destruct H as (Hall & Hfail & Hframe & Hbefore).
      assert (Hshift : forall t, n + 1 <= t ->
                 raw_reply os lba_to_msf fd sector
                           (log ++ [raw_call lba_to_msf fd sector n])
                           (n + 1) t = reply t)
        by (intros; apply raw_reply_shift; assumption).
      split; [|split; [|split]].
      * intro Hok. destruct Hall as [-> ->].
        { intros t Ht. rewrite Hshift by lia. apply Hok. lia. }
        split; [reflexivity|].
        rewrite raw_calls_S, <- app_assoc. reflexivity.
      * intros k Hk Hpre Hnone.
        assert (k <> n) by (intros ->; congruence).
        destruct (Hfail k) as (-> & -> & Hrest); try lia.
        { intros t Ht. rewrite Hshift by lia. apply Hpre. lia. }
        { rewrite Hshift by lia. exact Hnone. }
        split; [reflexivity|]. split.
        -- replace (S (Z.to_nat (k - n)))
             with (S (S (Z.to_nat (k - (n + 1))))) by lia.
           rewrite (raw_calls_S fd sector n), <- app_assoc. reflexivity.
        -- intros j Hj. rewrite Hrest by exact Hj.
           apply memcpy_outside. unfold CD_FRAMESIZE_RAW in *. lia.
      * intros t frame i Ht Hpre Hsome Hi.
        destruct (Z.eq_dec t n) as [->|Hne].
        -- rewrite Hbefore by (unfold CD_FRAMESIZE_RAW in *; lia).
           rewrite memcpy_inside by exact Hi. congruence.
        -- apply Hframe; try lia.
           ++ intros u Hu. rewrite Hshift by lia. apply Hpre. lia.
           ++ rewrite Hshift by lia. exact Hsome.
      * intros j Hj.
        rewrite Hbefore by (unfold CD_FRAMESIZE_RAW in *; lia).
        apply memcpy_outside. left. exact Hj.
    + (* the read fails: the loop is left at once *)
      injection H as <- <- <-.
      split; [|split; [|split]].
      * intro Hok. exfalso. apply (Hok n); [lia | congruence].
      * intros k Hk Hpre Hnone.
        destruct (Z.eq_dec k n) as [->|Hne].
        -- rewrite Z.sub_diag. cbn [Z.to_nat].
           rewrite raw_calls_S. unfold raw_calls, zrange. cbn [seq map].
           repeat split.
        -- exfalso. apply (Hpre n); [lia | congruence].
      * intros t frame i Ht Hpre Hsome Hi. exfalso.
        destruct (Z.eq_dec t n) as [->|Hne]; [congruence|].
        apply (Hpre n); [lia | congruence].
      * reflexivity.
Qed.

(** C8.  [ReadSectors2352] reads the sectors [sector], [sector + 1], ...
    in this order, one raw-read call each.  When every read succeeds it
    returns true.  At the first sector [k] whose read fails it returns false
    at once: the call for sector [k] is the last one, and the buffer is
    untouched from offset [k * 2352] on.  The frame of every sector read
    before a failure lies in the buffer at offset [n * 2352]. *)
Theorem ReadSectors2352_fail_fast :
  forall (s : IOCtlSrc) (sector count : Z) (buf : buffer) (log : trace),
    let fd := m_device s in
    let reply := raw_reply os lba_to_msf fd sector log 0 in
    let '(ok, buf', log') :=
      ReadSectors2352 os lba_to_msf s sector count buf log in
    ((forall t, 0 <= t < count -> reply t <> None) ->
     ok = true /\
     log' = log ++ raw_calls lba_to_msf fd sector 0 (Z.to_nat count))
    /\
    (forall k, 0 <= k < count ->
               (forall t, 0 <= t < k -> reply t <> None) ->
               reply k = None ->
               ok = false /\
               log' = log ++ raw_calls lba_to_msf fd sector 0
                                       (S (Z.to_nat k)) /\
               forall j, k * CD_FRAMESIZE_RAW <= j -> buf' j = buf j)
    /\
    (forall n frame i,
        0 <= n < count ->
        (forall u, 0 <= u < n -> reply u <> None) ->
        reply n = Some frame ->
        0 <= i < CD_FRAMESIZE_RAW ->
        buf' (n * CD_FRAMESIZE_RAW + i) = frame i)
    /\
    (forall j, j < 0 -> buf' j = buf j).
Proof.
  intros s sector count buf log fd reply.
  destruct (ReadSectors2352 os lba_to_msf s sector count buf log)
    as [[ok buf'] log'] eqn:H.
  unfold ReadSectors2352 in H.
  change 0 with (0 * CD_FRAMESIZE_RAW) in H at 2.
  apply raw_loop_spec in H. fold fd reply in H.
  destruct H as (Hall & Hfail & Hframe & Hbefore).
  split; [|split; [|split]].
  - intro Hok. apply Hall. intros t Ht. apply Hok. lia.
  - intros k Hk Hpre Hnone.
    destruct (Hfail k) as (-> & -> & Hrest); try assumption; try lia.
    rewrite Z.sub_0_r. repeat split. exact Hrest.
  - intros n frame i Hn Hpre Hsome Hi.
    apply Hframe; try assumption. lia.
  - intros j Hj. apply Hbefore. lia.
Qed.

End SectorReader.

(** C6 (where the code departs from it).  For [count = 2^21] the byte count
    [2048 * count] wraps to 0 in [u32]: [ReadSectors2048] asks for 0 bytes
    and, the read having transferred 0 bytes, returns true, although
    [count * 2048] bytes were to be read.  For every count below 2^21 the
    method behaves as C6 says, see [ReadSectors2048_spec]. *)
Theorem ReadSectors2048_count_wraps :
  ReadSectors2048 disc_drive opened 0 2097152 zeros []
  = (true, zeros, [Pread 3 0 0]) /\
  fst (sys_pread disc_drive [] 3 zeros 0 0) = 0 /\
  0 <> 2097152 * 2048.
Proof. repeat split. discriminate. Qed.

(** Four sectors asked for, the third unreadable: three calls, false, the
    first two frames in the buffer and nothing behind them. *)
Lemma ReadSectors2352_fail_fast_witness :
  let '(ok, buf', log') :=
    ReadSectors2352 disc_drive msf_of_lba opened 0 4 zeros [] in
  ok = false /\
  log' = [CDROMREADRAW 3 0 2 0; CDROMREADRAW 3 0 2 1; CDROMREADRAW 3 0 2 2] /\
  buf' 0 = 1 /\ buf' 2352 = 2 /\ buf' 4704 = 0.
Proof.
  pose proof (ReadSectors2352_fail_fast disc_drive msf_of_lba opened 0 4
                zeros []) as H.
  cbv zeta in H.
  destruct (ReadSectors2352 disc_drive msf_of_lba opened 0 4 zeros [])
    as [[ok buf'] log'].
  destruct H as (_ & Hfail & Hframe & _).
  assert (Hpre : forall t, 0 <= t < 2 ->
             raw_reply disc_drive msf_of_lba (m_device opened) 0 [] 0 t
             <> None).
  { intros t Ht. assert (t = 0 \/ t = 1) as [-> | ->] by lia; by_eval. }
  destruct (Hfail 2 ltac:(lia) Hpre eq_refl) as (Hok & Hlog & Hrest).
  split; [exact Hok|]. split; [exact Hlog|]. split; [|split].
  - apply (Hframe 0 (fun _ => 1) 0); try reflexivity; try lia.
    split; by_eval.
  - apply (Hframe 1 (fun _ => 2) 0); try reflexivity.
    + lia.
    + intros u Hu. apply Hpre. lia.
    + split; by_eval.
  - apply (Hrest 4704). by_eval.
Defined.

(** ** Sample runs *)

(** A CD with three tracks, the second unreadable: the TOC holds tracks 1
    and 3, the sector count is the lead-out LBA, the media type -1. *)
Example ReadCDInfo_three_tracks :
  ReadCDInfo cd_drive 3 opened []
  = Some (true,
          {| m_filename := "/dev/sr0"; m_device := 3; m_sectors := 300000;
             m_layer_break := 0; m_media_type := -1;
             m_toc := [{| lba := 0; track := 1; adr := 1; control := 4 |};
                       {| lba := 2000; track := 3; adr := 1; control := 4 |}]
          |},
          [CDROMREADTOCHDR 3; CDROMREADTOCENTRY 3 1 1;
           CDROMREADTOCENTRY 3 2 1; CDROMREADTOCENTRY 3 3 1;
           CDROMREADTOCENTRY 3 170 1]).
Proof. reflexivity. Qed.

(** Four sectors from sector 16: 8192 bytes at offset 32768. *)
Example ReadSectors2048_full_read :
  ReadSectors2048 disc_drive opened 16 4 zeros []
  = (true, zeros, [Pread 3 8192 32768]).
Proof. reflexivity. Qed.

(** A read that stops one byte short is a failure. *)
Example ReadSectors2048_short_read :
  ReadSectors2048 short_drive opened 16 4 zeros []
  = (false, zeros, [Pread 3 8192 32768]).
Proof. reflexivity. Qed.

(** The offset of the last [u32] sector does not wrap. *)
Example ReadSectors2048_last_sector :
  ReadSectors2048 disc_drive opened 4294967295 1 zeros []
  = (true, zeros, [Pread 3 2048 8796093020160]).
Proof. reflexivity. Qed.

(** A session without a handle is not asked about its drive. *)
Example DiscReady_fresh :
  DiscReady disc_drive 0 fresh [] = Some (false, fresh, []).
Proof. reflexivity. Qed.

(** * Further properties *)

(** ** What the probes leave alone *)

Section ProbeFrames.

Variable os : OS.

(** The DVD probe: what it changes, and the calls it issues. *)
Lemma ReadDVDInfo_frame :
  forall (s : IOCtlSrc) (log : trace) ok s' log',
    ReadDVDInfo os s log = (ok, s', log') ->
    m_device s' = m_device s /\ m_filename s' = m_filename s /\
    m_toc s' = m_toc s /\
    (ok = false -> s' = s) /\
    (ok = true ->
     0 <= m_sectors s' < 2 ^ 32 /\ 0 <= m_layer_break s' < 2 ^ 32 /\
     In (m_media_type s') [0; 1; 2]) /\
    exists suffix,
      log' = log ++ suffix /\
      forallb (dvd_call (m_device s)) suffix = true /\
      (1 <= List.length suffix <= 2)%nat.
Proof.
  intros s log ok s' log' H. unfold ReadDVDInfo in H.
  assert (Hcall : forall n,
             dvd_call (m_device s)
               (DVD_READ_STRUCT (m_device s) DVD_STRUCT_PHYSICAL n) = true).
  { intro n. cbn. rewrite Z.eqb_refl. reflexivity. }
  destruct (io_dvd_read_struct os log _ _ 0) as [layer|].
  - destruct (nlayers (layer 0) =? 0).
    + injection H as <- <- <-. repeat split; try discriminate;
        try apply u32_range; cbn; auto.
      eexists. split; [reflexivity|]. cbn [forallb List.length].
      rewrite Hcall. auto.
    + destruct (track_path (layer 0) =? 0).
      * destruct (io_dvd_read_struct os _ _ _ 1);
          injection H as <- <- <-; repeat split; try discriminate;
          try apply u32_range; cbn; auto;
          rewrite <- app_assoc; eexists; (split; [reflexivity|]);
          cbn [forallb List.length app]; rewrite !Hcall; auto.
      * injection H as <- <- <-. repeat split; try discriminate;
          try apply u32_range; cbn; auto.
        eexists. split; [reflexivity|]. cbn [forallb List.length].
        rewrite Hcall. auto.
  - injection H as <- <- <-. repeat split; try discriminate.
    eexists. split; [reflexivity|]. cbn [forallb List.length].
    rewrite Hcall. auto.
Qed.

(** The track loop only appends to the TOC and only reads TOC entries. *)
Lemma toc_loop_frame :
  forall (fuel : nat) (trk1 n : Z) (entry : cdrom_tocentry) (s : IOCtlSrc)
         (log : trace) entry' s' log',
    toc_loop os fuel trk1 n entry s log = Some (entry', s', log') ->
    cdte_format entry = CDROM_LBA ->
    cdte_format entry' = CDROM_LBA /\
    (exists toc, s' = set_m_toc (m_toc s ++ toc) s) /\
    exists suffix,
      log' = log ++ suffix /\
      forallb (toc_call (m_device s)) suffix = true.
Proof.
  induction fuel as [|fuel IH];
    intros trk1 n entry s log entry' s' log' H Hfmt;
    cbn [toc_loop] in H; destruct (n <=? trk1); try discriminate;
    try (injection H as <- <- <-; split; [exact Hfmt|]; split;
         [exists []; symmetry; apply set_m_toc_app_nil
         |exists []; split; [symmetry; apply app_nil_r | reflexivity]]).
  cbn [set_cdte_track cdte_track cdte_format] in H. rewrite Hfmt in H.
  assert (Hcall : toc_call (m_device s)
                    (CDROMREADTOCENTRY (m_device s) n CDROM_LBA) = true).
  { cbn. rewrite Z.eqb_refl. reflexivity. }
  destruct (io_read_toc_entry os log (m_device s) n CDROM_LBA) as [r|];
    apply IH in H; try exact Hfmt;
    destruct H as (Hfmt' & [toc Hs] & suffix & Hlog & Hall);
    cbn [set_m_toc m_toc m_device] in Hs, Hall;
    (split; [exact Hfmt'|]); split.
  - rewrite <- app_assoc in Hs. eexists. exact Hs.
  - eexists. rewrite Hlog, <- app_assoc. split; [reflexivity|].
    cbn [app forallb]. rewrite Hcall. exact Hall.
  - eexists. exact Hs.
  - eexists. rewrite Hlog, <- app_assoc. split; [reflexivity|].
    cbn [app forallb]. rewrite Hcall. exact Hall.
Qed.

(** The CD probe: what it changes, and the calls it issues. *)
Lemma ReadCDInfo_frame :
  forall (fuel : nat) (s : IOCtlSrc) (log : trace) ok s' log',
    ReadCDInfo os fuel s log = Some (ok, s', log') ->
    m_device s' = m_device s /\ m_filename s' = m_filename s /\
    m_layer_break s' = m_layer_break s /\
    (ok = false ->
     m_sectors s' = m_sectors s /\ m_media_type s' = m_media_type s) /\
    (ok = true -> 0 <= m_sectors s' < 2 ^ 32 /\ m_media_type s' = -1) /\
    (io_read_toc_hdr os log (m_device s) = None -> s' = s) /\
    exists suffix,
      log' = log ++ suffix /\
      forallb (toc_call (m_device s)) suffix = true.
Proof.
  intros fuel s log ok s' log' H. unfold ReadCDInfo in H.
  assert (Hhdr : toc_call (m_device s) (CDROMREADTOCHDR (m_device s))
                 = true) by (cbn; apply Z.eqb_refl).
  destruct (io_read_toc_hdr os log (m_device s)) as [h|].
  - destruct (toc_loop os fuel _ _ _ _ _) as [[[e s1] l1]|] eqn:Hloop;
      [|discriminate].
    apply toc_loop_frame in Hloop; [|reflexivity].
    destruct Hloop as (Hfmt & [toc ->] & suffix & -> & Hall).
    cbn [set_m_toc m_toc m_device set_cdte_track cdte_track cdte_format
                   app] in H, Hall.
    rewrite Hfmt in H.
    assert (Hlead : toc_call (m_device s)
                      (CDROMREADTOCENTRY (m_device s) CDROM_LEADOUT
                                         CDROM_LBA) = true).
    { cbn. rewrite Z.eqb_refl. reflexivity. }
    destruct (io_read_toc_entry os _ _ _ _);
      injection H as <- <- <-; repeat split; try discriminate;
      try apply u32_range;
      rewrite <- !app_assoc; eexists; (split; [reflexivity|]);
      cbn [app forallb]; rewrite Hhdr, forallb_app, Hall; cbn [forallb];
      rewrite Hlead; reflexivity.
  - injection H as <- <- <-. repeat split; try discriminate.
    eexists. split; [reflexivity|]. cbn [forallb]. rewrite Hhdr.
    reflexivity.
Qed.

(** The calls of one probe are probe calls. *)
Lemma dvd_calls_probe :
  forall fd l,
    forallb (dvd_call fd) l = true -> forallb (probe_call fd) l = true.
Proof.
  induction l as [|c l IH]; intro H; [reflexivity|].
  cbn [forallb] in *. apply andb_prop in H. destruct H as [Hc Hl].
  unfold probe_call at 1. rewrite Hc, (IH Hl). reflexivity.
Qed.

Lemma toc_calls_probe :
  forall fd l,
    forallb (toc_call fd) l = true -> forallb (probe_call fd) l = true.
Proof.
  induction l as [|c l IH]; intro H; [reflexivity|].
  cbn [forallb] in *. apply andb_prop in H. destruct H as [Hc Hl].
  unfold probe_call at 1. rewrite Hc, (IH Hl), orb_true_r. reflexivity.
Qed.

End ProbeFrames.

(** ** The session as a whole *)

Section SessionFrames.

Variable os : OS.

(** [Reopen]: the handle it leaves, the calls it issues and the fields it
    keeps. *)
Lemma Reopen_frame :
  forall (fuel : nat) (error : option Error) (s : IOCtlSrc) (log : trace)
         ok error' s' log',
    Reopen os fuel error s log = Some (ok, error', s', log') ->
    let fd := opened_fd os s log in
    m_device s' = fd /\ m_filename s' = m_filename s /\
    (geometry_ok s -> geometry_ok s') /\
    exists probes,
      log' = log_after_open s log ++ probes /\
      forallb (probe_call fd) probes = true /\
      (fd = -1 -> probes = []).
Proof.
  intros fuel error s log ok error' s' log' H fd.
  destruct (Z.eq_dec fd (-1)) as [Hfd|Hfd].
  - rewrite Reopen_open_fails in H by exact Hfd.
    injection H as <- <- <- <-.
    split; [symmetry; exact Hfd|]. split; [reflexivity|].
    split; [intro Hg; exact Hg|].
    exists []. rewrite app_nil_r. auto.
  - rewrite Reopen_open_succeeds in H by exact Hfd. fold fd in H.
    destruct (ReadDVDInfo os (set_m_device fd s) (log_after_open s log))
      as [[dvd s2] log2] eqn:Hdvd.
    apply ReadDVDInfo_frame in Hdvd.
    cbn [set_m_device m_device m_filename m_toc] in Hdvd.
    destruct Hdvd as (Hd & Hf & _ & Hfail & Hok & suffix & -> & Hall & _).
    destruct dvd.
    + injection H as <- <- <- <-.
      destruct (Hok eq_refl) as (Hsc & Hlb & Hmt).
      split; [exact Hd|]. split; [exact Hf|]. split.
      * intros _. repeat split; try apply Hsc; try apply Hlb.
        cbn in Hmt |- *. intuition.
      * exists suffix.
        repeat split; [apply dvd_calls_probe; exact Hall | contradiction].
    + specialize (Hfail eq_refl). subst s2.
      destruct (ReadCDInfo os fuel (set_m_device fd s)
                           (log_after_open s log ++ suffix))
        as [[[cd s3] log3]|] eqn:Hcd; [|discriminate].
      injection H as <- <- <- <-.
      apply ReadCDInfo_frame in Hcd.
      cbn [set_m_device m_device m_filename m_layer_break m_sectors
                        m_media_type] in Hcd.
      destruct Hcd as (Hd3 & Hf3 & Hlb3 & Hcdfail & Hcdok & _
                       & suffix' & -> & Hall').
      split; [exact Hd3|]. split; [exact Hf3|]. split.
      * intros (Hsc & Hlb & Hmt). unfold geometry_ok. rewrite Hlb3.
        destruct cd.
        -- destruct (Hcdok eq_refl) as [Hsc3 ->].
           repeat split; try apply Hsc3; try apply Hlb. cbn. auto.
        -- destruct (Hcdfail eq_refl) as [-> ->].
           repeat split; try apply Hsc; try apply Hlb. exact Hmt.
      * exists (suffix ++ suffix'). rewrite app_assoc.
        split; [reflexivity|]. split; [|contradiction].
        rewrite forallb_app, (dvd_calls_probe _ _ Hall),
          (toc_calls_probe _ _ Hall'). reflexivity.
Qed.

End SessionFrames.

(** ** The probes, beyond their results *)

Section ProbeProperties.

Variable os : OS.

(** X1.  Whatever the drive answers, the DVD probe keeps the handle, the
    device path and the stored TOC, and issues one or two physical-structure
    queries on the session's handle and no other call.  A probe that fails
    leaves the whole session as it was; one that succeeds leaves a sector
    count and a layer break within [u32] and a media type among 0, 1, 2. *)
Theorem ReadDVDInfo_keeps_session :
  forall (s : IOCtlSrc) (log : trace),
    let '(ok, s', log') := ReadDVDInfo os s log in
    m_device s' = m_device s /\ m_filename s' = m_filename s /\
    ReadTOC s' = ReadTOC s /\
    (ok = false -> s' = s) /\
    (ok = true ->
     0 <= GetSectorCount s' < 2 ^ 32 /\
     0 <= GetLayerBreakAddress s' < 2 ^ 32 /\
     In (GetMediaType s') [0; 1; 2]) /\
    exists suffix,
      log' = log ++ suffix /\
      forallb (dvd_call (m_device s)) suffix = true /\
      (1 <= List.length suffix <= 2)%nat.
Proof.
  intros s log.
  destruct (ReadDVDInfo os s log) as [[ok s'] log'] eqn:H.
  exact (ReadDVDInfo_frame os s log ok s' log' H).
Qed.

(** X2.  Whenever the CD probe returns, it has kept the handle, the device
    path and the layer break, and has issued only TOC reads in LBA mode on
    the session's handle.  A probe that fails has kept the sector count and
    the media type as well (the TOC may have been replaced); when the header
    read itself fails the session is left as it was. *)
Theorem ReadCDInfo_keeps_session :
  forall (fuel : nat) (s : IOCtlSrc) (log : trace) ok s' log',
    ReadCDInfo os fuel s log = Some (ok, s', log') ->
    m_device s' = m_device s /\ m_filename s' = m_filename s /\
    GetLayerBreakAddress s' = GetLayerBreakAddress s /\
    (ok = false ->
     GetSectorCount s' = GetSectorCount s /\
     GetMediaType s' = GetMediaType s) /\
    (ok = true -> 0 <= GetSectorCount s' < 2 ^ 32 /\ GetMediaType s' = -1) /\
    (io_read_toc_hdr os log (m_device s) = None -> s' = s) /\
    exists suffix,
      log' = log ++ suffix /\
      forallb (toc_call (m_device s)) suffix = true.
Proof. exact (ReadCDInfo_frame os). Qed.

(** X3.  On a disc whose last track number is below 255, and with fuel for
    every track, the CD probe reads the header, then the tracks
    [first .. last] once each in ascending order and in LBA mode, then the
    lead-out.  The stored TOC is replaced by the entries of the tracks that
    could be read.  When the lead-out cannot be read the probe returns false
    with the new TOC in place and the geometry untouched; otherwise the
    sector count is the lead-out LBA (as a [u32]) and the media type -1. *)
Theorem ReadCDInfo_enumerable :
  forall (fuel : nat) (s : IOCtlSrc) (log : trace) (h : cdrom_tochdr),
    io_read_toc_hdr os log (m_device s) = Some h ->
    enumerable h ->
    let fd := m_device s in
    let k := Z.to_nat (cdth_trk1 h - cdth_trk0 h + 1) in
    (k <= fuel)%nat ->
    let log1 := log ++ [CDROMREADTOCHDR fd] in
    let log2 := log1 ++ entry_calls fd (cdth_trk0 h) k in
    let log3 := log2 ++ [CDROMREADTOCENTRY fd CDROM_LEADOUT CDROM_LBA] in
    let s1 := set_m_toc (toc_of os fd log1 (cdth_trk0 h) k) s in
    ReadCDInfo os fuel s log =
    match io_read_toc_entry os log2 fd CDROM_LEADOUT CDROM_LBA with
    | None => Some (false, s1, log3)
    | Some r =>
      Some (true, set_m_media_type (-1) (set_m_sectors (u32 (r_lba r)) s1),
            log3)
    end.
Proof. exact (ReadCDInfo_in_range os). Qed.

(** The entries built from the tracks [n .. n+k-1]: their track numbers lie
    in that range and ascend, their addresses fit a [u32], and there are at
    most [k] of them. *)
Lemma toc_of_bounds :
  forall fd log n k,
    Forall (fun e => n <= track e < n + Z.of_nat k /\ 0 <= lba e < 2 ^ 32)
           (toc_of os fd log n k).
Proof.
  intros fd log n k. apply Forall_forall. intros e He.
  unfold toc_of in He. apply in_flat_map in He.
  destruct He as (t & Ht & He). apply zrange_In in Ht.
  destruct (track_reply os fd log n t) as [r|]; [|contradiction].
  destruct He as [<-|[]]. cbn. split; [exact Ht | apply u32_range].
Qed.

Lemma toc_of_sorted :
  forall k fd log n,
    StronglySorted (fun a b => track a < track b) (toc_of os fd log n k).
Proof.
  induction k as [|k IH]; intros fd log n.
  - constructor.
  - rewrite toc_of_S.
    destruct (io_read_toc_entry os log fd n CDROM_LBA) as [r|];
      cbn [app]; [|apply IH].
    constructor; [apply IH|].
    eapply Forall_impl; [|apply toc_of_bounds].
    intros e [He _]. cbn. lia.
Qed.

Lemma toc_of_length :
  forall k fd log n, (List.length (toc_of os fd log n k) <= k)%nat.
Proof.
  induction k as [|k IH]; intros fd log n.
  - apply Nat.le_refl.
  - rewrite toc_of_S, length_app.
    specialize (IH fd (log ++ [CDROMREADTOCENTRY fd n CDROM_LBA]) (n + 1)).
    destruct (io_read_toc_entry os log fd n CDROM_LBA); cbn [List.length];
      lia.
Qed.

(** X4.  On a disc whose last track number is below 255 the CD probe
    returns, and the TOC it stores is in strictly ascending track order,
    holds only tracks of [first .. last], each with an address that fits a
    [u32], and has at most [last - first + 1] entries. *)
Theorem ReadCDInfo_toc_ascending :
  forall (fuel : nat) (s : IOCtlSrc) (log : trace) (h : cdrom_tochdr),
    io_read_toc_hdr os log (m_device s) = Some h ->
    enumerable h ->
    (Z.to_nat (cdth_trk1 h - cdth_trk0 h + 1) <= fuel)%nat ->
    match ReadCDInfo os fuel s log with
    | Some (_, s', _) =>
      StronglySorted (fun a b => track a < track b) (ReadTOC s') /\
      Forall (fun e => cdth_trk0 h <= track e <= cdth_trk1 h /\
                       0 <= lba e < 2 ^ 32) (ReadTOC s') /\
      (List.length (ReadTOC s')
       <= Z.to_nat (cdth_trk1 h - cdth_trk0 h + 1))%nat
    | None => False
    end.
Proof.
  intros fuel s log h Hhdr Hen Hfuel.
  rewrite (ReadCDInfo_in_range os fuel s log h Hhdr Hen Hfuel).
  assert (Hb : Forall (fun e => cdth_trk0 h <= track e <= cdth_trk1 h /\
                                0 <= lba e < 2 ^ 32)
                      (toc_of os (m_device s)
                              (log ++ [CDROMREADTOCHDR (m_device s)])
                              (cdth_trk0 h)
                              (Z.to_nat (cdth_trk1 h - cdth_trk0 h + 1)))).
  { eapply Forall_impl; [|apply toc_of_bounds].
    intros e [He Hl]. split; [lia | exact Hl]. }
  destruct (io_read_toc_entry os _ _ _ _); cbn [ReadTOC set_m_toc m_toc
    set_m_sectors set_m_media_type];
    (split; [apply toc_of_sorted | split; [exact Hb | apply toc_of_length]]).
Qed.

(** X5.  When the header's first track number lies above its last, no track
    is read: the probe empties the TOC and goes straight to the lead-out,
    whatever the fuel. *)
Theorem ReadCDInfo_no_tracks :
  forall (fuel : nat) (s : IOCtlSrc) (log : trace) (h : cdrom_tochdr),
    io_read_toc_hdr os log (m_device s) = Some h ->
    cdth_trk1 h < cdth_trk0 h ->
    let fd := m_device s in
    let log1 := log ++ [CDROMREADTOCHDR fd] in
    let log2 := log1 ++ [CDROMREADTOCENTRY fd CDROM_LEADOUT CDROM_LBA] in
    ReadCDInfo os fuel s log =
    match io_read_toc_entry os log1 fd CDROM_LEADOUT CDROM_LBA with
    | None => Some (false, set_m_toc [] s, log2)
    | Some r =>
      Some (true,
            set_m_media_type (-1)
              (set_m_sectors (u32 (r_lba r)) (set_m_toc [] s)),
            log2)
    end.
Proof.
  intros fuel s log h Hhdr Hlt fd log1 log2.
  unfold ReadCDInfo. rewrite Hhdr. fold fd log1.
  assert (Hloop : toc_loop os fuel (cdth_trk1 h) (cdth_trk0 h) tocentry_init
                           (set_m_toc [] s) log1
                  = Some (tocentry_init, set_m_toc [] s, log1)).
  { destruct fuel; cbn [toc_loop];
      replace (cdth_trk0 h <=? cdth_trk1 h) with false
        by (symmetry; apply Z.leb_gt; exact Hlt);
      reflexivity. }
  rewrite Hloop.
  cbn [set_m_toc m_device set_cdte_track cdte_track cdte_format
                 tocentry_init].
  fold fd log2.
  destruct (io_read_toc_entry os log1 fd CDROM_LEADOUT CDROM_LBA);
    reflexivity.
Qed.

End ProbeProperties.

(** ** Descriptors *)

Section Descriptors.

Variable os : OS.

Lemma replay_app :
  forall l1 l2 prefix fds,
    replay os prefix (l1 ++ l2) fds
    = replay os (prefix ++ l1) l2 (replay os prefix l1 fds).
Proof.
  induction l1 as [|c l1 IH]; intros l2 prefix fds; cbn [app replay].
  - rewrite app_nil_r. reflexivity.
  - rewrite IH, <- app_assoc. reflexivity.
Qed.

Lemma open_descriptors_app :
  forall log l,
    open_descriptors os (log ++ l) = replay os log l (open_descriptors os log).
Proof. intros. unfold open_descriptors. rewrite replay_app. reflexivity. Qed.

(** Probe calls open and close nothing. *)
Lemma replay_probes :
  forall fd l prefix fds,
    forallb (probe_call fd) l = true -> replay os prefix l fds = fds.
Proof.
  induction l as [|c l IH]; intros prefix fds H; [reflexivity|].
  cbn [forallb] in H. apply andb_prop in H. destruct H as [Hc Hl].
  cbn [replay]. rewrite IH by exact Hl.
  destruct c; cbn in Hc; try discriminate; reflexivity.
Qed.

(** Once [Reopen] has closed the handle it had, nothing is open. *)
Lemma open_descriptors_before_open :
  forall s log,
    open_descriptors os log = held s ->
    open_descriptors os (log_before_open s log) = [].
Proof.
  intros s log H. unfold log_before_open, held in *.
  destruct (m_device s =? -1); [exact H|].
  rewrite open_descriptors_app, H. cbn. rewrite Z.eqb_refl. reflexivity.
Qed.

Lemma Reopen_descriptors :
  forall (fuel : nat) (error : option Error) (s : IOCtlSrc) (log : trace)
         ok error' s' log',
    open_descriptors os log = held s ->
    Reopen os fuel error s log = Some (ok, error', s', log') ->
    open_descriptors os log' = held s'.
Proof.
  intros fuel error s log ok error' s' log' Hinv H.
  apply Reopen_frame in H.
  destruct H as (Hd & _ & _ & probes & -> & Hall & _).
  rewrite open_descriptors_app. rewrite (replay_probes _ _ _ _ Hall).
  unfold log_after_open. rewrite open_descriptors_app.
  rewrite (open_descriptors_before_open s log Hinv).
  unfold held. rewrite Hd. unfold opened_fd. cbn [replay handle_step].
  destruct (sys_open os (log_before_open s log) (m_filename s) open_flags
            =? -1); reflexivity.
Qed.

Lemma DiscReady_descriptors :
  forall (fuel : nat) (s : IOCtlSrc) (log : trace) ok s' log',
    open_descriptors os log = held s ->
    DiscReady os fuel s log = Some (ok, s', log') ->
    open_descriptors os log' = held s'.
Proof.
  intros fuel s log ok s' log' Hinv H. unfold DiscReady in H.
  destruct (m_device s =? -1) eqn:Hdev.
  - injection H as _ <- <-. exact Hinv.
  - assert (Hst : open_descriptors os
                    (log ++ [CDROM_DRIVE_STATUS (m_device s) CDSL_CURRENT])
                  = held s).
    { rewrite open_descriptors_app. exact Hinv. }
    destruct (io_drive_status os log (m_device s) CDSL_CURRENT
              =? CDS_DISC_OK).
    + destruct (negb (to_bool (m_sectors s))).
      * destruct (Reopen os fuel None s _) as [[[[r e] s2] log2]|] eqn:Hre;
          [|discriminate].
        injection H as _ <- <-.
        exact (Reopen_descriptors _ _ _ _ _ _ _ _ Hst Hre).
      * injection H as _ <- <-. exact Hst.
    + injection H as _ <- <-. rewrite Hst. unfold held. cbn [m_device
        set_m_media_type set_m_layer_break set_m_sectors]. reflexivity.
Qed.

(** X6.  If the descriptors a trace has left open are those the session
    holds, the same is true after [Reopen]: the old handle is closed before
    the device is opened again, and the one descriptor that may be open
    afterwards is the session's new handle. *)
Theorem Reopen_holds_its_descriptor :
  forall (fuel : nat) (error : option Error) (s : IOCtlSrc) (log : trace)
         ok error' s' log',
    open_descriptors os log = held s ->
    Reopen os fuel error s log = Some (ok, error', s', log') ->
    open_descriptors os log' = held s' /\
    (List.length (open_descriptors os log') <= 1)%nat.
Proof.
  intros fuel error s log ok error' s' log' Hinv H.
  pose proof (Reopen_descriptors _ _ _ _ _ _ _ _ Hinv H) as Heq.
  split; [exact Heq|]. rewrite Heq. unfold held.
  destruct (m_device s' =? -1); cbn; lia.
Qed.

(** X7.  Any sequence of [Reopen] and [DiscReady] calls, started on a
    session that holds the descriptors its trace has left open, ends on such
    a session; the destructor then leaves no descriptor open. *)
Theorem destroy_releases_every_descriptor :
  forall (fuel : nat) (ops : list session_op) (s : IOCtlSrc) (log : trace)
         s' log',
    open_descriptors os log = held s ->
    run_ops os fuel ops s log = Some (s', log') ->
    open_descriptors os log' = held s' /\
    open_descriptors os (destroy s' log') = [].
Proof.
  intros fuel ops. induction ops as [|op ops IH];
    intros s log s' log' Hinv H; cbn [run_ops] in H.
  - injection H as <- <-. split; [exact Hinv|].
    unfold destroy. unfold held in Hinv.
    destruct (m_device s =? -1); [exact Hinv|].
    rewrite open_descriptors_app, Hinv. cbn. rewrite Z.eqb_refl.
    reflexivity.
  - destruct op as [error|].
    + destruct (Reopen os fuel error s log) as [[[[r e] s1] log1]|] eqn:Hre;
        [|discriminate].
      exact (IH _ _ _ _ (Reopen_descriptors _ _ _ _ _ _ _ _ Hinv Hre) H).
    + destruct (DiscReady os fuel s log) as [[[r s1] log1]|] eqn:Hdr;
        [|discriminate].
      exact (IH _ _ _ _ (DiscReady_descriptors _ _ _ _ _ _ Hinv Hdr) H).
Qed.

End Descriptors.

(** ** Calls and fields of [Reopen] and [DiscReady] *)

Section SessionProperties.

Variable os : OS.

Lemma probe_call_session :
  forall fd path c,
    probe_call fd c = true ->
    session_call path c = true /\ is_status_call c = false.
Proof. intros fd path c H. destruct c; cbn in H; try discriminate; auto. Qed.

Lemma probe_calls_session :
  forall fd path l,
    forallb (probe_call fd) l = true ->
    forallb (session_call path) l = true /\ existsb is_status_call l = false.
Proof.
  induction l as [|c l IH]; intro H; [auto|].
  cbn [forallb existsb] in *. apply andb_prop in H. destruct H as [Hc Hl].
  destruct (probe_call_session fd path c Hc) as [-> ->].
  destruct (IH Hl) as [-> ->]. auto.
Qed.

(** X8.  Whenever [Reopen] returns, it has issued, in this order: a close of
    the handle the session had, if it had one; one open of the session's
    device path, read-only and non-blocking; and probe calls on the
    descriptor that open returned, none at all when the open failed.  The
    session's handle is that descriptor and its device path is unchanged. *)
Theorem Reopen_calls :
  forall (fuel : nat) (error : option Error) (s : IOCtlSrc) (log : trace)
         ok error' s' log',
    Reopen os fuel error s log = Some (ok, error', s', log') ->
    let fd := opened_fd os s log in
    m_device s' = fd /\ m_filename s' = m_filename s /\
    exists probes,
      log' = log
             ++ (if m_device s =? -1 then [] else [Close (m_device s)])
             ++ Open (m_filename s) (Z.lor O_RDONLY O_NONBLOCK) :: probes /\
      forallb (probe_call fd) probes = true /\
      (fd = -1 -> probes = []).
Proof.
  intros fuel error s log ok error' s' log' H fd.
  apply Reopen_frame in H. fold fd in H.
  destruct H as (Hd & Hf & _ & probes & -> & Hall & Hnone).
  split; [exact Hd|]. split; [exact Hf|].
  exists probes. split; [|split; assumption].
  unfold log_after_open, log_before_open, open_flags.
  destruct (m_device s =? -1); rewrite <- ?app_assoc; reflexivity.
Qed.

(** X9.  [Reopen] changes the stored TOC only when the CD probe's header
    read succeeds: when the open fails, when the DVD probe succeeds or when
    the header cannot be read, the TOC of an earlier disc stays in place. *)
Theorem Reopen_keeps_toc :
  forall (fuel : nat) (error : option Error) (s : IOCtlSrc) (log : trace)
         ok error' s' log',
    Reopen os fuel error s log = Some (ok, error', s', log') ->
    let fd := opened_fd os s log in
    let '(dvd, _, log2) :=
      ReadDVDInfo os (set_m_device fd s) (log_after_open s log) in
    fd = -1 \/ dvd = true \/ io_read_toc_hdr os log2 fd = None ->
    ReadTOC s' = ReadTOC s.
Proof.
  intros fuel error s log ok error' s' log' H fd.
  destruct (ReadDVDInfo os (set_m_device fd s) (log_after_open s log))
    as [[dvd s2] log2] eqn:Hdvd.
  intro Hcase.
  destruct (Z.eq_dec fd (-1)) as [Hfd|Hfd].
  - rewrite Reopen_open_fails in H by exact Hfd.
    injection H as _ _ <- _. reflexivity.
  - rewrite Reopen_open_succeeds in H by exact Hfd. fold fd in H.
    rewrite Hdvd in H. apply ReadDVDInfo_frame in Hdvd.
    cbn [set_m_device m_device m_toc] in Hdvd.
    destruct Hdvd as (Hd & _ & Htoc & Hfail & _).
    destruct dvd.
    + injection H as _ _ <- _. exact Htoc.
    + destruct Hcase as [Hc|[Hc|Hc]]; [contradiction | discriminate |].
      specialize (Hfail eq_refl). subst s2.
      destruct (ReadCDInfo os fuel (set_m_device fd s) log2)
        as [[[cd s3] log3]|] eqn:Hcd; [|discriminate].
      injection H as _ _ <- _.
      apply ReadCDInfo_frame in Hcd.
      destruct Hcd as (_ & _ & _ & _ & _ & Hsame & _).
      rewrite (Hsame Hc). reflexivity.
Qed.

(** X10.  When the device opens but neither probe can read the disc (the
    layer-0 query and the TOC header read both fail), [Reopen] still returns
    true, for any fuel: the session has the new handle, its geometry and TOC
    are what they were, and the error sink is untouched. *)
Theorem Reopen_unreadable_disc :
  forall (fuel : nat) (error : option Error) (s : IOCtlSrc) (log : trace),
    let fd := opened_fd os s log in
    let log1 := log_after_open s log in
    let log2 := log1 ++ [DVD_READ_STRUCT fd DVD_STRUCT_PHYSICAL 0] in
    fd <> -1 ->
    io_dvd_read_struct os log1 fd DVD_STRUCT_PHYSICAL 0 = None ->
    io_read_toc_hdr os log2 fd = None ->
    Reopen os fuel error s log
    = Some (true, error, set_m_device fd s, log2 ++ [CDROMREADTOCHDR fd]).
Proof.
  intros fuel error s log fd log1 log2 Hfd Hdvd Hhdr.
  rewrite Reopen_open_succeeds by exact Hfd. fold fd log1.
  unfold ReadDVDInfo. cbn [set_m_device m_device]. rewrite Hdvd.
  fold log2. unfold ReadCDInfo. cbn [set_m_device m_device].
  rewrite Hhdr. reflexivity.
Qed.

(** [DiscReady]: the fields it keeps. *)
Lemma DiscReady_frame :
  forall (fuel : nat) (s : IOCtlSrc) (log : trace) ok s' log',
    DiscReady os fuel s log = Some (ok, s', log') ->
    m_filename s' = m_filename s /\ (geometry_ok s -> geometry_ok s').
Proof.
  intros fuel s log ok s' log' H. unfold DiscReady in H.
  destruct (m_device s =? -1).
  - injection H as _ <- _. auto.
  - destruct (io_drive_status os log (m_device s) CDSL_CURRENT
              =? CDS_DISC_OK).
    + destruct (negb (to_bool (m_sectors s))).
      * destruct (Reopen os fuel None s _) as [[[[r e] s2] log2]|] eqn:Hre;
          [|discriminate].
        injection H as _ <- _. apply Reopen_frame in Hre.
        destruct Hre as (_ & Hf & Hg & _). auto.
      * injection H as _ <- _. auto.
    + injection H as _ <- _. split; [reflexivity|].
      intros _. unfold geometry_ok. cbn. intuition lia.
Qed.

(** X11.  Over any sequence of [Reopen] and [DiscReady] calls the device
    path never changes, and geometry that started within its types stays
    within them: sector count and layer break within [u32], media type among
    -1, 0, 1 and 2. *)
Theorem session_keeps_geometry_typed :
  forall (fuel : nat) (ops : list session_op) (s : IOCtlSrc) (log : trace)
         s' log',
    run_ops os fuel ops s log = Some (s', log') ->
    m_filename s' = m_filename s /\ (geometry_ok s -> geometry_ok s').
Proof.
  intros fuel ops. induction ops as [|op ops IH];
    intros s log s' log' H; cbn [run_ops] in H.
  - injection H as <- <-. auto.
  - destruct op as [error|].
    + destruct (Reopen os fuel error s log) as [[[[r e] s1] log1]|] eqn:Hre;
        [|discriminate].
      apply Reopen_frame in Hre. destruct Hre as (_ & Hf & Hg & _).
      destruct (IH _ _ _ _ H) as [Hf' Hg'].
      split; [congruence | auto].
    + destruct (DiscReady os fuel s log) as [[[r s1] log1]|] eqn:Hdr;
        [|discriminate].
      apply DiscReady_frame in Hdr. destruct Hdr as [Hf Hg].
      destruct (IH _ _ _ _ H) as [Hf' Hg'].
      split; [congruence | auto].
Qed.

(** X12.  Whenever [DiscReady] returns, it has issued no call at all on a
    session without a handle, and otherwise one status query, first and for
    the current slot ([CDSL_CURRENT], which is not 0), followed only by the
    calls of a [Reopen] on the session's device path: no second status
    query and no sector read. *)
Theorem DiscReady_calls :
  forall (fuel : nat) (s : IOCtlSrc) (log : trace) ok s' log',
    DiscReady os fuel s log = Some (ok, s', log') ->
    CDSL_CURRENT <> 0 /\
    exists suffix,
      log' = log ++ suffix /\
      forallb (session_call (m_filename s)) suffix = true /\
      (m_device s = -1 -> suffix = []) /\
      (m_device s <> -1 ->
       exists rest,
         suffix = CDROM_DRIVE_STATUS (m_device s) CDSL_CURRENT :: rest /\
         existsb is_status_call rest = false).
Proof.
  intros fuel s log ok s' log' H. split; [discriminate|].
  unfold DiscReady in H.
  destruct (Z.eqb_spec (m_device s) (-1)) as [Hdev|Hdev].
  - injection H as _ _ <-. exists []. rewrite app_nil_r.
    split; [reflexivity|]. split; [reflexivity|].
    split; [reflexivity | contradiction].
  - assert (Hone : exists suffix,
               log ++ [CDROM_DRIVE_STATUS (m_device s) CDSL_CURRENT]
               = log ++ suffix /\
               forallb (session_call (m_filename s)) suffix = true /\
               (m_device s = -1 -> suffix = []) /\
               (m_device s <> -1 ->
                exists rest,
                  suffix = CDROM_DRIVE_STATUS (m_device s) CDSL_CURRENT
                           :: rest /\
                  existsb is_status_call rest = false)).
    { eexists. split; [reflexivity|]. split; [reflexivity|].
      split; [contradiction|]. intros _. exists []. auto. }
    destruct (io_drive_status os log (m_device s) CDSL_CURRENT
              =? CDS_DISC_OK).
    + destruct (negb (to_bool (m_sectors s))).
      * destruct (Reopen os fuel None s _) as [[[[r e] s2] log2]|] eqn:Hre;
          [|discriminate].
        injection H as _ _ <-. apply Reopen_frame in Hre.
        destruct Hre as (_ & _ & _ & probes & -> & Hall & _).
        destruct (probe_calls_session _ (m_filename s) _ Hall)
          as [Hsess Hnost].
        unfold log_after_open, log_before_open.
        replace (m_device s =? -1) with false
          by (symmetry; apply Z.eqb_neq; exact Hdev).
        rewrite <- !app_assoc. cbn [app].
        eexists. split; [reflexivity|].
        cbn [forallb session_call]. rewrite String.eqb_refl, !Z.eqb_refl.
        split; [exact Hsess|]. split; [contradiction|].
        intros _. eexists. split; [reflexivity|].
        cbn [existsb is_status_call]. exact Hnost.
      * injection H as _ _ <-. exact Hone.
    + injection H as _ _ <-. exact Hone.
Qed.

(** X13.  A [DiscReady] that finds a disc present, no geometry resolved and
    a device node that can no longer be opened gives up the handle: it
    returns false, the session has no handle afterwards, and every later
    [DiscReady] returns false without asking the drive. *)
Theorem DiscReady_gives_up_handle :
  forall (fuel fuel' : nat) (s : IOCtlSrc) (log : trace),
    let log1 := log ++ [CDROM_DRIVE_STATUS (m_device s) CDSL_CURRENT] in
    m_device s <> -1 ->
    io_drive_status os log (m_device s) CDSL_CURRENT = CDS_DISC_OK ->
    GetSectorCount s = 0 ->
    opened_fd os s log1 = -1 ->
    let s' := set_m_device (-1) s in
    let log' := log1 ++ [Close (m_device s);
                         Open (m_filename s) (Z.lor O_RDONLY O_NONBLOCK)] in
    DiscReady os fuel s log = Some (false, s', log') /\
    DiscReady os fuel' s' log' = Some (false, s', log').
Proof.
  intros fuel fuel' s log log1 Hdev Hst Hsc Hfd s' log'.
  split; [|reflexivity].
  unfold DiscReady. apply Z.eqb_neq in Hdev. rewrite Hdev, Hst.
  unfold GetSectorCount in Hsc. rewrite Hsc. cbn [Z.eqb to_bool negb].
  fold log1. rewrite Reopen_open_fails by exact Hfd.
  cbn [set_m_device m_sectors]. rewrite Hsc. cbn [Z.eqb to_bool negb].
  unfold log_after_open, log_before_open. rewrite Hdev.
  rewrite <- app_assoc. reflexivity.
Qed.

End SessionProperties.

(** ** The sector reader, within its bounds *)

Section SectorReaderProperties.

Variable os : OS.
Variable lba_to_msf : Z -> Z * Z * Z.

(** X14.  For every [u32] sector and every count below 2^21,
    [ReadSectors2048] issues one positioned read of [count * 2048] bytes at
    the byte offset [sector * 2048], and returns true exactly when that read
    reports [count * 2048] bytes. *)
Theorem ReadSectors2048_in_range :
  forall (s : IOCtlSrc) (sector count : Z) (buf : buffer) (log : trace),
    0 <= sector < 2 ^ 32 ->
    0 <= count < 2 ^ 21 ->
    let fd := m_device s in
    let '(ok, _, log') := ReadSectors2048 os s sector count buf log in
    (ok = true <->
     fst (sys_pread os log fd buf (count * 2048) (sector * 2048))
     = count * 2048) /\
    log' = log ++ [Pread fd (count * 2048) (sector * 2048)].
Proof.
  intros s sector count buf log Hs Hc fd.
  destruct (ReadSectors2048_spec os s sector count buf log)
    as (Heq & Hoff & Hn).
  rewrite Heq, (Hoff Hs), (Hn Hc). fold fd.
  split; [apply Z.eqb_eq | reflexivity].
Qed.

(** The loop of [ReadSectors2352] writes only into the frames it was asked
    for and issues at most one call for each of them. *)
Lemma raw_loop_bounds :
  forall (r : nat) (fd sector n : Z) (buf : buffer) (log : trace)
         ok buf' log',
    raw_loop os lba_to_msf r fd sector n buf (n * CD_FRAMESIZE_RAW) log
    = (ok, buf', log') ->
    (forall j, j < n * CD_FRAMESIZE_RAW \/
               (n + Z.of_nat r) * CD_FRAMESIZE_RAW <= j ->
               buf' j = buf j) /\
    exists m,
      (m <= r)%nat /\
      log' = log ++ raw_calls lba_to_msf fd sector n m /\
      (ok = true -> m = r) /\ (ok = false -> (1 <= m)%nat).
Proof.
  induction r as [|r IH]; intros fd sector n buf log ok buf' log' H.
  - cbn [raw_loop] in H. injection H as <- <- <-.
    split; [reflexivity|]. exists 0%nat.
    unfold raw_calls. cbn. rewrite app_nil_r.
    repeat split; try reflexivity; discriminate.
  - cbn [raw_loop] in H.
    assert (Hcall : forall m sec f,
               lba_to_msf (u32_add sector n) = (m, sec, f) ->
               raw_call lba_to_msf fd sector n = CDROMREADRAW fd m sec f).
    { intros m sec f E. unfold raw_call. rewrite E. reflexivity. }
    destruct (lba_to_msf (u32_add sector n)) as [[m sec] f] eqn:Emsf.
    specialize (Hcall m sec f eq_refl). rewrite <- Hcall in H.
    destruct (io_read_raw os log fd (m, sec, f)) as [data|].
    + replace (n * CD_FRAMESIZE_RAW + CD_FRAMESIZE_RAW)
        with ((n + 1) * CD_FRAMESIZE_RAW) in H by lia.
      apply IH in H.
      destruct H as (Hout & k & Hk & -> & Htrue & Hfalse).
      split.
      * intros j Hj.
        rewrite Hout by (unfold CD_FRAMESIZE_RAW in *; lia).
        apply memcpy_outside. unfold CD_FRAMESIZE_RAW in *. lia.
      * exists (S k). split; [lia|]. split.
        -- rewrite raw_calls_S, <- app_assoc. reflexivity.
        -- split; intro Hok; [rewrite (Htrue Hok); reflexivity | lia].
    + injection H as <- <- <-. split; [reflexivity|].
      exists 1%nat. split; [lia|]. split.
      * rewrite raw_calls_S. unfold raw_calls, zrange. reflexivity.
      * split; [discriminate | reflexivity].
Qed.

(** X15.  Whatever the drive answers, [ReadSectors2352] writes nothing
    outside the first [count] frames of the buffer, and issues only
    raw-frame reads on the session's handle: at most [count] of them, for
    consecutive sectors, exactly [count] when it returns true and at least
    one when it returns false. *)
Theorem ReadSectors2352_stays_in_bounds :
  forall (s : IOCtlSrc) (sector count : Z) (buf : buffer) (log : trace),
    let fd := m_device s in
    let '(ok, buf', log') :=
      ReadSectors2352 os lba_to_msf s sector count buf log in
    (forall j, j < 0 \/ count * CD_FRAMESIZE_RAW <= j -> buf' j = buf j) /\
    exists m,
      (m <= Z.to_nat count)%nat /\
      log' = log ++ raw_calls lba_to_msf fd sector 0 m /\
      (ok = true -> m = Z.to_nat count) /\
      (ok = false -> (1 <= m)%nat).
Proof.
  intros s sector count buf log fd.
  destruct (ReadSectors2352 os lba_to_msf s sector count buf log)
    as [[ok buf'] log'] eqn:H.
  unfold ReadSectors2352 in H.
  change 0 with (0 * CD_FRAMESIZE_RAW) in H at 2.
  apply raw_loop_bounds in H. fold fd in H.
  destruct H as [Hout Hcalls]. split; [|exact Hcalls].
  intros j Hj. apply Hout. unfold CD_FRAMESIZE_RAW in *.
  destruct (Z.le_gt_cases 0 count); lia.
Qed.

End SectorReaderProperties.

(** ** Media change and TOC membership *)

Section MediaChange.

Variable os : OS.

(** X16.  After a [DiscReady] that found no disc, the next [DiscReady] that
    finds one always probes afresh: the first call resets the geometry and
    returns false, the second runs [Reopen], which closes the handle and
    opens the device path again before it probes. *)
Theorem DiscReady_reprobes_after_removal :
  forall (fuel : nat) (s : IOCtlSrc) (log : trace),
    let fd := m_device s in
    let log1 := log ++ [CDROM_DRIVE_STATUS fd CDSL_CURRENT] in
    let log2 := log1 ++ [CDROM_DRIVE_STATUS fd CDSL_CURRENT] in
    let s1 := set_m_media_type 0 (set_m_layer_break 0 (set_m_sectors 0 s)) in
    fd <> -1 ->
    io_drive_status os log fd CDSL_CURRENT <> CDS_DISC_OK ->
    io_drive_status os log1 fd CDSL_CURRENT = CDS_DISC_OK ->
    DiscReady os fuel s log = Some (false, s1, log1) /\
    DiscReady os fuel s1 log1
    = match Reopen os fuel None s1 log2 with
      | Some (_, _, s', log') => Some (to_bool (m_sectors s'), s', log')
      | None => None
      end /\
    forall ok s' log',
      DiscReady os fuel s1 log1 = Some (ok, s', log') ->
      exists probes,
        log' = log2 ++ Close fd
                    :: Open (m_filename s) (Z.lor O_RDONLY O_NONBLOCK)
                    :: probes.
Proof.
  intros fuel s log fd log1 log2 s1 Hdev Hst1 Hst2.
  apply Z.eqb_neq in Hdev, Hst1.
  assert (H1 : DiscReady os fuel s log = Some (false, s1, log1)).
  { unfold DiscReady. fold fd. rewrite Hdev, Hst1. reflexivity. }
  assert (H2 : DiscReady os fuel s1 log1
               = match Reopen os fuel None s1 log2 with
                 | Some (_, _, s', log') =>
                   Some (to_bool (m_sectors s'), s', log')
                 | None => None
                 end).
  { unfold DiscReady.
    cbn [s1 set_m_media_type set_m_layer_break set_m_sectors m_device
            m_sectors].
    fold fd. rewrite Hdev, Hst2, Z.eqb_refl. reflexivity. }
  split; [exact H1|]. split; [exact H2|].
  intros ok s' log' H. rewrite H2 in H.
  destruct (Reopen os fuel None s1 log2) as [[[[r e] s2] l2]|] eqn:Hre;
    [|discriminate].
  injection H as _ _ <-. apply Reopen_frame in Hre.
  destruct Hre as (_ & _ & _ & probes & -> & _).
  exists probes. unfold log_after_open, log_before_open, open_flags.
  cbn [s1 set_m_media_type set_m_layer_break set_m_sectors m_device
          m_filename].
  fold fd. rewrite Hdev, <- !app_assoc. reflexivity.
Qed.

Lemma zrange_In_iff :
  forall k n t, In t (zrange n k) <-> n <= t < n + Z.of_nat k.
Proof.
  intros k n t. split; [apply zrange_In|].
  intro H. unfold zrange. apply in_map_iff.
  exists (Z.to_nat (t - n)). split; [lia|]. apply in_seq. lia.
Qed.

Lemma toc_of_membership :
  forall fd log n k t,
    In t (map track (toc_of os fd log n k)) <->
    n <= t < n + Z.of_nat k /\ track_reply os fd log n t <> None.
Proof.
  intros fd log n k t. rewrite in_map_iff. unfold toc_of. split.
  - intros (e & <- & He). apply in_flat_map in He.
    destruct He as (u & Hu & He). apply zrange_In in Hu.
    destruct (track_reply os fd log n u) as [r|] eqn:Hr; [|contradiction].
    destruct He as [<-|[]]. cbn. split; [exact Hu | congruence].
  - intros [Ht Hr].
    destruct (track_reply os fd log n t) as [r|] eqn:Hrep; [|congruence].
    exists {| lba := u32 (r_lba r); track := t; adr := r_adr r;
              control := r_ctrl r |}.
    split; [reflexivity|]. apply in_flat_map.
    exists t. split; [apply zrange_In_iff; exact Ht|].
    rewrite Hrep. left. reflexivity.
Qed.

(** X17.  On a disc whose last track number is below 255, a track number
    is in the TOC the CD probe stores exactly when it lies in
    [first .. last] and the drive answered the read of that track: the
    tracks that could not be read, and only those, are left out. *)
Theorem ReadCDInfo_toc_membership :
  forall (fuel : nat) (s : IOCtlSrc) (log : trace) (h : cdrom_tochdr),
    io_read_toc_hdr os log (m_device s) = Some h ->
    enumerable h ->
    (Z.to_nat (cdth_trk1 h - cdth_trk0 h + 1) <= fuel)%nat ->
    match ReadCDInfo os fuel s log with
    | Some (_, s', _) =>
      forall t,
        In t (map track (ReadTOC s')) <->
        cdth_trk0 h <= t <= cdth_trk1 h /\
        track_reply os (m_device s) (log ++ [CDROMREADTOCHDR (m_device s)])
                    (cdth_trk0 h) t <> None
    | None => False
    end.
Proof.
  intros fuel s log h Hhdr Hen Hfuel.
  rewrite (ReadCDInfo_in_range os fuel s log h Hhdr Hen Hfuel).
  destruct (io_read_toc_entry os _ _ _ _) as [r|];
    cbn [ReadTOC set_m_toc m_toc set_m_sectors set_m_media_type];
    intro trk; rewrite toc_of_membership; destruct Hen; split;
    intros [Ht Hr]; (split; [lia | exact Hr]).
Qed.

End MediaChange.

(** ** The further properties on the sample drives *)

(** A parallel-track disc whose layer 1 cannot be described leaves the
    session alone; an opposite-track disc is given media type 2. *)
Lemma ReadDVDInfo_keeps_session_witness :
  (let '(ok, s', _) := ReadDVDInfo ptp_drive_l1_fails stale [] in
   ok = false /\ s' = stale) /\
  (let '(ok, s', _) := ReadDVDInfo otp_drive stale [] in
   ok = true /\ In (GetMediaType s') [0; 1; 2] /\
   ReadTOC s' = ReadTOC stale).
Proof.
  split.
  - pose proof (ReadDVDInfo_keeps_session ptp_drive_l1_fails stale []) as H.
    destruct (ReadDVDInfo ptp_drive_l1_fails stale []) as [[ok s'] log']
      eqn:E.
    destruct H as (_ & _ & _ & Hfail & _).
    assert (Hok : ok = false) by (vm_compute in E; congruence).
    split; [exact Hok | exact (Hfail Hok)].
  - pose proof (ReadDVDInfo_keeps_session otp_drive stale []) as H.
    destruct (ReadDVDInfo otp_drive stale []) as [[ok s'] log'] eqn:E.
    destruct H as (_ & _ & Htoc & _ & Hsucc & _).
    assert (Hok : ok = true) by (vm_compute in E; congruence).
    split; [exact Hok|]. split; [apply (Hsucc Hok) | exact Htoc].
Defined.

(** The CD probe on a session that still has the geometry of an earlier
    disc: handle and layer break stay, the media type becomes -1. *)
Lemma ReadCDInfo_keeps_session_witness :
  match ReadCDInfo cd_drive 3 stale [] with
  | Some (ok, s', _) =>
    ok = true /\ m_device s' = 3 /\
    GetLayerBreakAddress s' = GetLayerBreakAddress stale /\
    GetMediaType s' = -1
  | None => False
  end.
Proof.
  destruct (ReadCDInfo cd_drive 3 stale []) as [[[ok s'] log']|] eqn:E.
  - pose proof (ReadCDInfo_keeps_session cd_drive 3 stale [] ok s' log' E)
      as (Hd & _ & Hlb & _ & Hsucc & _).
    assert (Hok : ok = true) by (vm_compute in E; congruence).
    split; [exact Hok|]. split; [exact Hd|]. split; [exact Hlb|].
    apply (Hsucc Hok).
  - vm_compute in E. discriminate E.
Defined.

(** Three tracks, the second unreadable. *)
Lemma ReadCDInfo_enumerable_witness :
  ReadCDInfo cd_drive 3 opened []
  = Some (true,
          set_m_media_type (-1)
            (set_m_sectors 300000
               (set_m_toc
                  [{| lba := 0; track := 1; adr := 1; control := 4 |};
                   {| lba := 2000; track := 3; adr := 1; control := 4 |}]
                  opened)),
          [CDROMREADTOCHDR 3; CDROMREADTOCENTRY 3 1 1;
           CDROMREADTOCENTRY 3 2 1; CDROMREADTOCENTRY 3 3 1;
           CDROMREADTOCENTRY 3 170 1]).
Proof.
  exact (ReadCDInfo_enumerable cd_drive 3 opened []
           {| cdth_trk0 := 1; cdth_trk1 := 3 |} eq_refl
           ltac:(split; by_eval) (le_n 3)).
Defined.

Lemma ReadCDInfo_toc_ascending_witness :
  match ReadCDInfo cd_drive 3 opened [] with
  | Some (_, s', _) =>
    StronglySorted (fun a b => track a < track b) (ReadTOC s') /\
    (List.length (ReadTOC s') <= 3)%nat
  | None => False
  end.
Proof.
  pose proof (ReadCDInfo_toc_ascending cd_drive 3 opened []
                {| cdth_trk0 := 1; cdth_trk1 := 3 |} eq_refl
                ltac:(split; by_eval) (le_n 3)) as H.
  destruct (ReadCDInfo cd_drive 3 opened []) as [[[ok s'] log']|];
    [|exact H].
  destruct H as (H1 & _ & H3). split; [exact H1 | exact H3].
Defined.

(** A header announcing tracks 5 to 3: only the lead-out is read, even
    without fuel. *)
Lemma ReadCDInfo_no_tracks_witness :
  ReadCDInfo cd_drive_no_tracks 0 stale []
  = Some (true,
          set_m_media_type (-1) (set_m_sectors 300000 (set_m_toc [] stale)),
          [CDROMREADTOCHDR 3; CDROMREADTOCENTRY 3 170 1]).
Proof.
  exact (ReadCDInfo_no_tracks cd_drive_no_tracks 0 stale []
           {| cdth_trk0 := 5; cdth_trk1 := 3 |} eq_refl ltac:(by_eval)).
Defined.

Lemma ReadCDInfo_toc_membership_witness :
  match ReadCDInfo cd_drive 3 opened [] with
  | Some (_, s', _) =>
    In 3 (map track (ReadTOC s')) /\ ~ In 2 (map track (ReadTOC s'))
  | None => False
  end.
Proof.
  pose proof (ReadCDInfo_toc_membership cd_drive 3 opened []
                {| cdth_trk0 := 1; cdth_trk1 := 3 |} eq_refl
                ltac:(split; by_eval) (le_n 3)) as H.
  destruct (ReadCDInfo cd_drive 3 opened []) as [[[ok s'] log']|];
    [|exact H].
  split.
  - apply H. split; [split; by_eval | by_eval].
  - intro Hin. apply H in Hin. destruct Hin as [_ Hr]. apply Hr.
    reflexivity.
Defined.

(** A session whose handle 3 is the one open descriptor is reopened on a CD:
    descriptor 3 is closed and the descriptor of the new handle is the one
    left open. *)
Lemma Reopen_holds_its_descriptor_witness :
  match Reopen cd_drive 3 None stale [Open "/dev/sr0" 2048] with
  | Some (_, _, s', log') =>
    open_descriptors cd_drive log' = held s' /\
    (List.length (open_descriptors cd_drive log') <= 1)%nat
  | None => False
  end.
Proof.
  destruct (Reopen cd_drive 3 None stale [Open "/dev/sr0" 2048])
    as [[[[ok e] s'] log']|] eqn:E.
  - exact (Reopen_holds_its_descriptor cd_drive 3 None stale
             [Open "/dev/sr0" 2048] ok e s' log' eq_refl E).
  - vm_compute in E. discriminate E.
Defined.

(** Open, poll, open again, destroy: nothing stays open. *)
Lemma destroy_releases_every_descriptor_witness :
  match run_ops cd_drive 3 [OpReopen None; OpDiscReady; OpReopen None]
                fresh [] with
  | Some (s', log') =>
    held s' = [3] /\ open_descriptors cd_drive log' = held s' /\
    open_descriptors cd_drive (destroy s' log') = []
  | None => False
  end.
Proof.
  destruct (run_ops cd_drive 3 [OpReopen None; OpDiscReady; OpReopen None]
                    fresh []) as [[s' log']|] eqn:E.
  - destruct (destroy_releases_every_descriptor cd_drive 3 _ fresh [] s' log'
                eq_refl E) as [H1 H2].
    split; [|split; assumption].
    vm_compute in E. injection E as <- _. reflexivity.
  - vm_compute in E. discriminate E.
Defined.

Lemma Reopen_calls_witness :
  match Reopen cd_drive 3 None stale [] with
  | Some (_, _, s', log') =>
    m_device s' = 3 /\ m_filename s' = "/dev/sr0"%string /\
    exists probes,
      log' = Close 3 :: Open "/dev/sr0" 2048 :: probes /\
      forallb (probe_call 3) probes = true
  | None => False
  end.
Proof.
  destruct (Reopen cd_drive 3 None stale []) as [[[[ok e] s'] log']|] eqn:E.
  - destruct (Reopen_calls cd_drive 3 None stale [] ok e s' log' E)
      as (Hd & Hf & probes & Hlog & Hall & _).
    split; [exact Hd|]. split; [exact Hf|].
    exists probes. split; [exact Hlog | exact Hall].
  - vm_compute in E. discriminate E.
Defined.

(** A DVD put into the drive of a session that holds the TOC of a CD: the
    TOC stays. *)
Lemma Reopen_keeps_toc_witness :
  match Reopen otp_drive 0 None stale [] with
  | Some (_, _, s', _) => ReadTOC s' = ReadTOC stale /\ GetMediaType s' = 2
  | None => False
  end.
Proof.
  destruct (Reopen otp_drive 0 None stale []) as [[[[ok e] s'] log']|] eqn:E.
  - pose proof (Reopen_keeps_toc otp_drive 0 None stale [] ok e s' log' E)
      as H.
    cbv zeta in H.
    assert (Hd : ReadDVDInfo otp_drive
                   (set_m_device (opened_fd otp_drive stale []) stale)
                   (log_after_open stale [])
                 = (true,
                    set_m_sectors 3932160
                      (set_m_layer_break 1966079
                         (set_m_media_type 2 stale)),
                    [Close 3; Open "/dev/sr0" 2048; DVD_READ_STRUCT 3 0 0]))
      by reflexivity.
    rewrite Hd in H. split; [exact (H (or_intror (or_introl eq_refl)))|].
    vm_compute in E. injection E as _ _ <- _. reflexivity.
  - vm_compute in E. discriminate E.
Defined.

Lemma Reopen_unreadable_disc_witness :
  Reopen unreadable_drive 0 (Some ErrorNone) stale []
  = Some (true, Some ErrorNone, stale,
          [Close 3; Open "/dev/sr0" 2048; DVD_READ_STRUCT 3 0 0;
           CDROMREADTOCHDR 3]).
Proof.
  exact (Reopen_unreadable_disc unreadable_drive 0 (Some ErrorNone) stale []
           ltac:(by_eval) eq_refl eq_refl).
Defined.

Lemma session_keeps_geometry_typed_witness :
  match run_ops cd_drive 3 [OpReopen None; OpDiscReady] fresh [] with
  | Some (s', _) => m_filename s' = "/dev/sr0"%string /\ geometry_ok s'
  | None => False
  end.
Proof.
  destruct (run_ops cd_drive 3 [OpReopen None; OpDiscReady] fresh [])
    as [[s' log']|] eqn:E.
  - destruct (session_keeps_geometry_typed cd_drive 3 _ fresh [] s' log' E)
      as [Hf Hg].
    split; [exact Hf|]. apply Hg.
    split; [by_eval|]. split; [by_eval|]. right. left. reflexivity.
  - vm_compute in E. discriminate E.
Defined.

Lemma DiscReady_calls_witness :
  match DiscReady cd_drive 3 opened [] with
  | Some (_, _, log') =>
    exists rest,
      log' = CDROM_DRIVE_STATUS 3 CDSL_CURRENT :: rest /\
      existsb is_status_call rest = false /\
      forallb (session_call "/dev/sr0") log' = true
  | None => False
  end.
Proof.
  destruct (DiscReady cd_drive 3 opened []) as [[[ok s'] log']|] eqn:E.
  - destruct (DiscReady_calls cd_drive 3 opened [] ok s' log' E)
      as (_ & suffix & Hlog & Hall & _ & Hrest).
    destruct (Hrest ltac:(by_eval)) as (rest & Hsuf & Hnone).
    exists rest. cbn [app] in Hlog. subst log'.
    split; [exact Hsuf|]. split; [exact Hnone | exact Hall].
  - vm_compute in E. discriminate E.
Defined.

(** The device node has gone while the drive reports a disc: the handle is
    given up. *)
Lemma DiscReady_gives_up_handle_witness :
  DiscReady vanished_drive 0 opened []
  = Some (false, fresh,
          [CDROM_DRIVE_STATUS 3 CDSL_CURRENT; Close 3;
           Open "/dev/sr0" 2048]) /\
  DiscReady vanished_drive 0 fresh
            [CDROM_DRIVE_STATUS 3 CDSL_CURRENT; Close 3;
             Open "/dev/sr0" 2048]
  = Some (false, fresh,
          [CDROM_DRIVE_STATUS 3 CDSL_CURRENT; Close 3;
           Open "/dev/sr0" 2048]).
Proof.
  exact (DiscReady_gives_up_handle vanished_drive 0 0 opened []
           ltac:(by_eval) eq_refl eq_refl eq_refl).
Defined.

(** A disc taken out and a CD put in. *)
Lemma DiscReady_reprobes_after_removal_witness :
  DiscReady swapped_drive 3 stale []
  = Some (false,
          set_m_media_type 0 (set_m_layer_break 0 (set_m_sectors 0 stale)),
          [CDROM_DRIVE_STATUS 3 CDSL_CURRENT]) /\
  match DiscReady swapped_drive 3
          (set_m_media_type 0 (set_m_layer_break 0 (set_m_sectors 0 stale)))
          [CDROM_DRIVE_STATUS 3 CDSL_CURRENT] with
  | Some (ok, _, log') =>
    ok = true /\
    exists probes,
      log' = [CDROM_DRIVE_STATUS 3 CDSL_CURRENT;
              CDROM_DRIVE_STATUS 3 CDSL_CURRENT]
             ++ Close 3 :: Open "/dev/sr0" 2048 :: probes
  | None => False
  end.
Proof.
  destruct (DiscReady_reprobes_after_removal swapped_drive 3 stale []
              ltac:(by_eval) ltac:(by_eval) eq_refl) as (H1 & _ & H3).
  split; [exact H1|].
  destruct (DiscReady swapped_drive 3
              (set_m_media_type 0
                 (set_m_layer_break 0 (set_m_sectors 0 stale)))
              [CDROM_DRIVE_STATUS 3 CDSL_CURRENT])
    as [[[ok s'] log']|] eqn:E.
  - split; [|exact (H3 ok s' log' E)].
    vm_compute in E. injection E as <- _ _. reflexivity.
  - vm_compute in E. discriminate E.
Defined.

Lemma ReadSectors2048_in_range_witness :
  let '(ok, _, log') := ReadSectors2048 disc_drive opened 16 4 zeros [] in
  ok = true /\ log' = [Pread 3 8192 32768].
Proof.
  pose proof (ReadSectors2048_in_range disc_drive opened 16 4 zeros []
                ltac:(by_eval) ltac:(by_eval)) as H.
  cbv zeta in H.
  destruct (ReadSectors2048 disc_drive opened 16 4 zeros [])
    as [[ok buf'] log'].
  destruct H as [Hiff Hlog]. split; [|exact Hlog].
  apply Hiff. reflexivity.
Defined.

(** Four sectors asked for, the third unreadable: at most four calls, and
    the buffer beyond the fourth frame is as it was. *)
Lemma ReadSectors2352_stays_in_bounds_witness :
  let '(ok, buf', log') :=
    ReadSectors2352 disc_drive msf_of_lba opened 0 4 zeros [] in
  buf' 9408 = zeros 9408 /\ buf' (-1) = zeros (-1) /\
  (List.length log' <= 4)%nat.
Proof.
  pose proof (ReadSectors2352_stays_in_bounds disc_drive msf_of_lba opened
                0 4 zeros []) as H.
  cbv zeta in H.
  destruct (ReadSectors2352 disc_drive msf_of_lba opened 0 4 zeros [])
    as [[ok buf'] log'].
  destruct H as (Hout & m & Hm & Hlog & _).
  split; [apply Hout; right; by_eval|].
  split; [apply Hout; left; by_eval|].
  rewrite Hlog. cbn [app]. unfold raw_calls, zrange.
  rewrite !length_map, length_seq. exact Hm.
Defined.
